(** * MemoryMind AI: the opponent model and the match controller

    A shallow embedding of [js/utils.js], [js/ai.js] and [js/game.js].

    Conventions of the embedding.
    - A JavaScript number that is a count or an index is a [nat]; a number
      that comes out of a division or of [Math.random] is an exact rational
      [Q] (rounding of IEEE doubles is not modelled).
    - [undefined] is [None]; an array read [a[i]] is [nth_error].
    - A method that mutates [this] is a state transformer; an exception
      leaves the state as it was when it was thrown, so a computation returns
      a result together with the state ([M]).
    - [Math.random()] reads the next sample of an oracle carried in the
      state; a sample is a rational in [0, 1) by its type.
    - [await] on timers and animations is a no-op: every handler runs to
      completion before the next one starts.  The two mutually recursive
      asynchronous methods [evaluateMove] and [makeAIMove] take the method
      they call last as a parameter, so that one definition gives both the
      method itself and the segment of it that ends where the other starts. *)

From Stdlib Require Import String Bool.
From Stdlib Require Import List Arith Lia ZArith QArith Qminmax Qround Permutation.
Import ListNotations.

Local Open Scope string_scope.
Local Open Scope list_scope.
Local Open Scope nat_scope.

(** ** Results, exceptions and the state monad *)

Inductive Error : Type :=
| TypeError    (* a property of [undefined] was read *)
| Unmodelled   (* execution went on with a value this development has no type for *)
| Exhausted.   (* the bound put on the depth of a recursion was reached *)

Inductive Result (A : Type) : Type :=
| Ok (a : A)
| Throw (e : Error).

Arguments Ok {A} a.
Arguments Throw {A} e.

Definition M (S A : Type) : Type := S -> Result A * S.

Definition ret {S A} (a : A) : M S A := fun s => (Ok a, s).

Definition bind {S A B} (m : M S A) (k : A -> M S B) : M S B :=
  fun s => match m s with
           | (Ok a, s') => k a s'
           | (Throw e, s') => (Throw e, s')
           end.

Definition throw {S A} (e : Error) : M S A := fun s => (Throw e, s).
Definition get {S} : M S S := fun s => (Ok s, s).
Definition modify {S} (f : S -> S) : M S unit := fun s => (Ok tt, f s).

(** Run a computation on a component of the state. *)
Definition zoom {S T A} (proj : S -> T) (upd : T -> S -> S) (m : M T A) : M S A :=
  fun s => let (r, t) := m (proj s) in (r, upd t s).

Declare Scope js_scope.
Delimit Scope js_scope with js.
Notation "x <- m ;; k" := (bind m (fun x => k))
  (at level 61, m at next level, right associativity) : js_scope.
Notation "m ;; k" := (bind m (fun _ => k))
  (at level 61, right associativity) : js_scope.
Notation "' pat <- m ;; k" := (bind m (fun x => match x with pat => k end))
  (at level 61, pat pattern, m at next level, right associativity) : js_scope.
Local Open Scope js_scope.

Definition when {S} (b : bool) (m : M S unit) : M S unit :=
  if b then m else ret tt.

(** ** Numbers *)

Definition Qltb (a b : Q) : bool := negb (Qle_bool b a).

(** [Math.floor] of a non-negative number, as an array index. *)
Definition Math_floor (q : Q) : nat := Z.to_nat (Qfloor q).

Definition ofNat (n : nat) : Q := inject_Z (Z.of_nat n).

(** ** The random oracle *)

Definition in_unit (q : Q) : bool := Qle_bool 0 q && Qltb q 1.

Record Unit01 : Type := { sample : Q; sample_ok : in_unit sample = true }.

Definition Oracle : Type := list Unit01.

Definition zero01 : Unit01 := {| sample := 0; sample_ok := eq_refl |}.

(** [Math.random()]; an exhausted oracle keeps answering 0. *)
Definition Math_random : M Oracle Unit01 :=
  fun rs => match rs with
            | [] => (Ok zero01, [])
            | r :: rs' => (Ok r, rs')
            end.

(** ** Arrays *)

Definition includes (l : list nat) (x : nat) : bool := existsb (Nat.eqb x) l.

(** [Array.prototype.sort(compare)] is stable.  [before a b] stands for
    [compare(a, b) <= 0]; elements are inserted from left to right, each one
    behind every element that is allowed to stay before it. *)
Fixpoint insertBy {A} (before : A -> A -> bool) (x : A) (l : list A) : list A :=
  match l with
  | [] => [x]
  | y :: l' => if before y x then y :: insertBy before x l' else x :: l
  end.

Definition sortBy {A} (before : A -> A -> bool) (l : list A) : list A :=
  fold_left (fun acc x => insertBy before x acc) l [].

(** [Map]: insertion-ordered, [set] on a present key keeps its place. *)
Module JsMap.
Section Keyed.
Context {K V : Type} (eqb : K -> K -> bool).

Fixpoint get (m : list (K * V)) (k : K) : option V :=
  match m with
  | [] => None
  | (k', v) :: m' => if eqb k k' then Some v else get m' k
  end.

Definition has (m : list (K * V)) (k : K) : bool :=
  match get m k with Some _ => true | None => false end.

Fixpoint set (m : list (K * V)) (k : K) (v : V) : list (K * V) :=
  match m with
  | [] => [(k, v)]
  | (k', v') :: m' => if eqb k k' then (k', v) :: m' else (k', v') :: set m' k v
  end.
End Keyed.

Definition size {K V} (m : list (K * V)) : nat := length m.
Definition keys {K V} (m : list (K * V)) : list K := map fst m.
Definition values {K V} (m : list (K * V)) : list V := map snd m.
End JsMap.

(** ** [GameUtils] *)

Module GameUtils.

Fixpoint update {A} (l : list A) (i : nat) (x : A) : list A :=
  match l, i with
  | [], _ => []
  | _ :: l', 0 => x :: l'
  | y :: l', S i' => y :: update l' i' x
  end.

(** [[a[i], a[j]] = [a[j], a[i]]].  Both indices are inside the array
    wherever [shuffleArray] swaps (lemma [shuffle_index_in_range]); the
    array is returned as it is otherwise. *)
Definition swap {A} (l : list A) (i j : nat) : list A :=
  match nth_error l i, nth_error l j with
  | Some a, Some b => update (update l i b) j a
  | _, _ => l
  end.

(** The loop of [shuffleArray], for the counter running from [i] down to 1. *)
Fixpoint shuffleLoop {A} (i : nat) (shuffled : list A) : M Oracle (list A) :=
  match i with
  | 0 => ret shuffled
  | S i' =>
      r <- Math_random ;;
      let j := Math_floor (sample r * ofNat (i + 1)) in
      shuffleLoop i' (swap shuffled i j)
  end.

Definition shuffleArray {A} (array : list A) : M Oracle (list A) :=
  shuffleLoop (length array - 1) array.

Definition randomChoice {A} (array : list A) : M Oracle (option A) :=
  r <- Math_random ;;
  ret (nth_error array (Math_floor (sample r * ofNat (length array)))).

Inductive Symbol : Type := star | circle | triangle | square.

Definition Symbol_eqb (a b : Symbol) : bool :=
  match a, b with
  | star, star | circle, circle | triangle, triangle | square, square => true
  | _, _ => false
  end.

Definition SYMBOLS : list Symbol := [star; circle; triangle; square].
Definition SYMBOL_NAMES : list string := ["star"; "circle"; "triangle"; "square"].

Record DifficultyConfig : Type :=
  { rows : nat; cols : nat; aiAccuracy : Q }.

(** What reading [DIFFICULTIES[key]] gives.  The table is an object
    literal, so a key that is not one of its own is looked up in
    [Object.prototype]. *)
Inductive Lookup : Type :=
| Undefined
| Profile (c : DifficultyConfig)
| Inherited.

Definition Object_prototype_keys : list string :=
  ["constructor"; "__defineGetter__"; "__defineSetter__"; "hasOwnProperty";
   "__lookupGetter__"; "__lookupSetter__"; "isPrototypeOf";
   "propertyIsEnumerable"; "toString"; "valueOf"; "__proto__";
   "toLocaleString"].

Definition beginner : DifficultyConfig := {| rows := 4; cols := 4; aiAccuracy := 7 # 10 |}.
Definition intermediate : DifficultyConfig := {| rows := 4; cols := 6; aiAccuracy := 85 # 100 |}.
Definition advanced : DifficultyConfig := {| rows := 6; cols := 6; aiAccuracy := 95 # 100 |}.
Definition expert : DifficultyConfig := {| rows := 6; cols := 8; aiAccuracy := 98 # 100 |}.

Definition DIFFICULTIES (key : string) : Lookup :=
  if String.eqb key "beginner" then Profile beginner
  else if String.eqb key "intermediate" then Profile intermediate
  else if String.eqb key "advanced" then Profile advanced
  else if String.eqb key "expert" then Profile expert
  else if existsb (String.eqb key) Object_prototype_keys then Inherited
  else Undefined.

End GameUtils.

(** ** [MemoryAI] *)

Module MemoryAI.
Import GameUtils.

(** An entry of [playerPatterns]; its [timestamp] is wall-clock time and is
    left out. *)
Record PlayerPattern : Type :=
  { cardIndex : nat; patternMoveNumber : nat }.

Record HistoryEntry : Type :=
  { historyCards : nat * nat;
    historyWasMatch : bool;
    historySymbols : Symbol * Symbol;
    historyMoveNumber : nat }.

Record Revealed : Type :=
  { revealedSymbol : Symbol; revealedMoveNumber : nat; isPlayerMove : bool }.

Record t : Type :=
  { difficulty : string;
    memory : list (nat * Symbol);
    probabilityMatrix : list (nat * list (Symbol * Q));
    playerPatterns : list PlayerPattern;
    gameHistory : list HistoryEntry;
    thinkingTime : nat;
    config : option DifficultyConfig;
    memoryAccuracy : Q;
    explorationRate : Q;
    knownPairs : list Symbol;
    revealedCards : list (nat * Revealed);
    moveCount : nat }.

Definition with_difficulty (x : string) (a : t) : t :=
  {| difficulty := x; memory := memory a; probabilityMatrix := probabilityMatrix a;
     playerPatterns := playerPatterns a; gameHistory := gameHistory a;
     thinkingTime := thinkingTime a; config := config a;
     memoryAccuracy := memoryAccuracy a; explorationRate := explorationRate a;
     knownPairs := knownPairs a; revealedCards := revealedCards a;
     moveCount := moveCount a |}.

Definition with_memory (x : list (nat * Symbol)) (a : t) : t :=
  {| difficulty := difficulty a; memory := x; probabilityMatrix := probabilityMatrix a;
     playerPatterns := playerPatterns a; gameHistory := gameHistory a;
     thinkingTime := thinkingTime a; config := config a;
     memoryAccuracy := memoryAccuracy a; explorationRate := explorationRate a;
     knownPairs := knownPairs a; revealedCards := revealedCards a;
     moveCount := moveCount a |}.

Definition with_probabilityMatrix (x : list (nat * list (Symbol * Q))) (a : t) : t :=
  {| difficulty := difficulty a; memory := memory a; probabilityMatrix := x;
     playerPatterns := playerPatterns a; gameHistory := gameHistory a;
     thinkingTime := thinkingTime a; config := config a;
     memoryAccuracy := memoryAccuracy a; explorationRate := explorationRate a;
     knownPairs := knownPairs a; revealedCards := revealedCards a;
     moveCount := moveCount a |}.

Definition with_playerPatterns (x : list PlayerPattern) (a : t) : t :=
  {| difficulty := difficulty a; memory := memory a; probabilityMatrix := probabilityMatrix a;
     playerPatterns := x; gameHistory := gameHistory a;
     thinkingTime := thinkingTime a; config := config a;
     memoryAccuracy := memoryAccuracy a; explorationRate := explorationRate a;
     knownPairs := knownPairs a; revealedCards := revealedCards a;
     moveCount := moveCount a |}.

Definition with_gameHistory (x : list HistoryEntry) (a : t) : t :=
  {| difficulty := difficulty a; memory := memory a; probabilityMatrix := probabilityMatrix a;
     playerPatterns := playerPatterns a; gameHistory := x;
     thinkingTime := thinkingTime a; config := config a;
     memoryAccuracy := memoryAccuracy a; explorationRate := explorationRate a;
     knownPairs := knownPairs a; revealedCards := revealedCards a;
     moveCount := moveCount a |}.

Definition with_config (x : option DifficultyConfig) (a : t) : t :=
  {| difficulty := difficulty a; memory := memory a; probabilityMatrix := probabilityMatrix a;
     playerPatterns := playerPatterns a; gameHistory := gameHistory a;
     thinkingTime := thinkingTime a; config := x;
     memoryAccuracy := memoryAccuracy a; explorationRate := explorationRate a;
     knownPairs := knownPairs a; revealedCards := revealedCards a;
     moveCount := moveCount a |}.

Definition with_memoryAccuracy (x : Q) (a : t) : t :=
  {| difficulty := difficulty a; memory := memory a; probabilityMatrix := probabilityMatrix a;
     playerPatterns := playerPatterns a; gameHistory := gameHistory a;
     thinkingTime := thinkingTime a; config := config a;
     memoryAccuracy := x; explorationRate := explorationRate a;
     knownPairs := knownPairs a; revealedCards := revealedCards a;
     moveCount := moveCount a |}.

Definition with_explorationRate (x : Q) (a : t) : t :=
  {| difficulty := difficulty a; memory := memory a; probabilityMatrix := probabilityMatrix a;
     playerPatterns := playerPatterns a; gameHistory := gameHistory a;
     thinkingTime := thinkingTime a; config := config a;
     memoryAccuracy := memoryAccuracy a; explorationRate := x;
     knownPairs := knownPairs a; revealedCards := revealedCards a;
     moveCount := moveCount a |}.

Definition with_knownPairs (x : list Symbol) (a : t) : t :=
  {| difficulty := difficulty a; memory := memory a; probabilityMatrix := probabilityMatrix a;
     playerPatterns := playerPatterns a; gameHistory := gameHistory a;
     thinkingTime := thinkingTime a; config := config a;
     memoryAccuracy := memoryAccuracy a; explorationRate := explorationRate a;
     knownPairs := x; revealedCards := revealedCards a;
     moveCount := moveCount a |}.

Definition with_revealedCards (x : list (nat * Revealed)) (a : t) : t :=
  {| difficulty := difficulty a; memory := memory a; probabilityMatrix := probabilityMatrix a;
     playerPatterns := playerPatterns a; gameHistory := gameHistory a;
     thinkingTime := thinkingTime a; config := config a;
     memoryAccuracy := memoryAccuracy a; explorationRate := explorationRate a;
     knownPairs := knownPairs a; revealedCards := x;
     moveCount := moveCount a |}.

Definition with_moveCount (x : nat) (a : t) : t :=
  {| difficulty := difficulty a; memory := memory a; probabilityMatrix := probabilityMatrix a;
     playerPatterns := playerPatterns a; gameHistory := gameHistory a;
     thinkingTime := thinkingTime a; config := config a;
     memoryAccuracy := memoryAccuracy a; explorationRate := explorationRate a;
     knownPairs := knownPairs a; revealedCards := revealedCards a;
     moveCount := x |}.

(** [this.config.<field>]: a [TypeError] when [this.config] is [undefined]. *)
Definition readConfig {S} (a : t) : M S DifficultyConfig :=
  match config a with
  | Some c => ret c
  | None => throw TypeError
  end.

(** The opponent together with the random source its methods draw from. *)
Abbreviation Env := (t * Oracle)%type.

Definition self : M Env t := fun e => (Ok (fst e), e).
Definition update (f : t -> t) : M Env unit := fun e => (Ok tt, (f (fst e), snd e)).
Definition random {A} (m : M Oracle A) : M Env A :=
  zoom snd (fun rs e => (fst e, rs)) m.
Definition onSelf {A} (m : M t A) : M Env A :=
  zoom fst (fun a e => (a, snd e)) m.

Definition reset (a : t) : t :=
  with_moveCount 0
    (with_revealedCards []
      (with_knownPairs []
        (with_gameHistory []
          (with_playerPatterns []
            (with_probabilityMatrix []
              (with_memory [] a)))))).

(** [symbolCounts], built by the first loop of [updateProbabilities]. *)
Definition symbolCounts (values : list Symbol) : list (Symbol * nat) :=
  fold_left
    (fun counts symbol =>
       JsMap.set Symbol_eqb counts symbol
         (match JsMap.get Symbol_eqb counts symbol with Some n => n | None => 0 end + 1))
    values [].

(** The object [probabilities] built for one unknown card. *)
Definition probabilitiesFor (counts : list (Symbol * nat)) (symbolsPerType : Q)
    (unknown : Z) : list (Symbol * Q) :=
  map (fun symbol =>
         let seen := match JsMap.get Symbol_eqb counts symbol with Some n => n | None => 0 end in
         let remaining := (symbolsPerType - ofNat seen)%Q in
         (symbol, Qmax 0 (remaining / inject_Z unknown)))
      SYMBOLS.

(** A division by zero gives [Infinity] or [NaN], which [Q] does not have:
    the loop stops as [Unmodelled] should it have to divide by zero. *)
Definition updateProbabilities (revealedSymbol : Symbol) : M t unit :=
  a <- get ;;
  let counts := symbolCounts (JsMap.values (memory a)) in
  c <- readConfig a ;;
  let totalCards := rows c * cols c in
  let symbolsPerType := (ofNat totalCards / ofNat (length SYMBOLS))%Q in
  let unknown := (Z.of_nat totalCards - Z.of_nat (JsMap.size (memory a)))%Z in
  let targets := filter (fun i => negb (JsMap.has Nat.eqb (memory a) i)) (seq 0 totalCards) in
  match targets with
  | [] => ret tt
  | _ :: _ =>
      if (unknown =? 0)%Z then throw Unmodelled
      else
        modify (fun a =>
          with_probabilityMatrix
            (fold_left
               (fun matrix i =>
                  JsMap.set Nat.eqb matrix i (probabilitiesFor counts symbolsPerType unknown))
               targets (probabilityMatrix a))
            a)
  end.

Definition trackPlayerPattern (index : nat) (a : t) : t :=
  let pushed := playerPatterns a ++ [{| cardIndex := index; patternMoveNumber := moveCount a |}] in
  with_playerPatterns (if 20 <? length pushed then tl pushed else pushed) a.

Definition observeCard (index : nat) (symbol : Symbol) (isPlayer : bool) : M Env unit :=
  r <- random Math_random ;;
  a <- self ;;
  when (Qltb (sample r) (memoryAccuracy a))
    (update (fun a =>
       with_revealedCards
         (JsMap.set Nat.eqb (revealedCards a) index
            {| revealedSymbol := symbol; revealedMoveNumber := moveCount a;
               isPlayerMove := isPlayer |})
         (with_memory (JsMap.set Nat.eqb (memory a) index symbol) a))) ;;
  onSelf (updateProbabilities symbol) ;;
  when isPlayer (update (trackPlayerPattern index)) ;;
  update (fun a => with_moveCount (moveCount a + 1) a).

(** An area is the string [`${Math.floor(row / 2)}-${Math.floor(col / 2)}`],
    kept here as the pair of its two numbers. *)
Definition Area : Type := (nat * nat)%type.

Definition Area_eqb (x y : Area) : bool :=
  (fst x =? fst y) && (snd x =? snd y).

Definition areaOf (gridCols index : nat) : Area :=
  let row := index / gridCols in
  let col := index mod gridCols in
  (row / 2, col / 2).

Record PatternAnalysis : Type :=
  { predictedAreas : list Area; confidence : Q }.

(** With no column the row and the column of a card are [NaN]: [Unmodelled]. *)
Definition analyzePlayerPatterns (a : t) : M Env PatternAnalysis :=
  if length (playerPatterns a) <? 3 then
    ret {| predictedAreas := []; confidence := 0 |}
  else
    c <- readConfig a ;;
    let gridCols := cols c in
    if gridCols =? 0 then throw Unmodelled
    else
      let areaPreferences :=
        fold_left
          (fun prefs pattern =>
             let area := areaOf gridCols (cardIndex pattern) in
             JsMap.set Area_eqb prefs area
               (match JsMap.get Area_eqb prefs area with Some n => n | None => 0 end + 1))
          (playerPatterns a) [] in
      let sortedAreas :=
        firstn 2 (sortBy (fun x y => snd y <=? snd x) areaPreferences) in
      ret {| predictedAreas := map fst sortedAreas;
             confidence :=
               match sortedAreas with
               | top :: _ => (ofNat (snd top) / ofNat (length (playerPatterns a)))%Q
               | [] => 0
               end |}.

(** [calculateThinkingTime] only sets the length of a pause, but it reads
    [this.config.rows] on the way. *)
Definition calculateThinkingTime (a : t) : M Env unit :=
  _ <- readConfig a ;; ret tt.

(** The inner loop of [findKnownPairs], then the outer one. *)
Fixpoint findKnownPairsFrom (a : t) (availableMemory : list nat) : option (nat * nat) :=
  match availableMemory with
  | [] => None
  | card1 :: rest =>
      match find (fun card2 =>
                    match JsMap.get Nat.eqb (memory a) card1,
                          JsMap.get Nat.eqb (memory a) card2 with
                    | Some s1, Some s2 => Symbol_eqb s1 s2
                    | None, None => true
                    | _, _ => false
                    end) rest with
      | Some card2 => Some (card1, card2)
      | None => findKnownPairsFrom a rest
      end
  end.

Definition findKnownPairs (a : t) (availableCards : list nat) : option (nat * nat) :=
  findKnownPairsFrom a (filter (fun index => JsMap.has Nat.eqb (memory a) index) availableCards).

(** [this.probabilityMatrix.get(index)?.[knownSymbol] || 0] *)
Definition probabilityOf (a : t) (index : nat) (knownSymbol : Symbol) : Q :=
  match JsMap.get Nat.eqb (probabilityMatrix a) index with
  | Some probabilities =>
      match JsMap.get Symbol_eqb probabilities knownSymbol with
      | Some p => p
      | None => 0
      end
  | None => 0
  end.

Definition candidatesFor (a : t) (availableCards : list nat) (knownSymbol : Symbol)
    : list (nat * Q) :=
  sortBy (fun x y => Qle_bool (snd y) (snd x))
    (filter (fun card => Qltb (3 # 10) (snd card))
       (map (fun index => (index, probabilityOf a index knownSymbol))
          (filter (fun index => negb (JsMap.has Nat.eqb (memory a) index)) availableCards))).

Fixpoint probabilityBasedMoveFrom (a : t) (availableCards : list nat)
    (entries : list (nat * Symbol)) : option (nat * nat) :=
  match entries with
  | [] => None
  | (knownIndex, knownSymbol) :: rest =>
      if negb (includes availableCards knownIndex) then
        probabilityBasedMoveFrom a availableCards rest
      else
        match candidatesFor a availableCards knownSymbol with
        | best :: _ => Some (knownIndex, fst best)
        | [] => probabilityBasedMoveFrom a availableCards rest
        end
  end.

Definition probabilityBasedMove (a : t) (availableCards : list nat) : option (nat * nat) :=
  probabilityBasedMoveFrom a availableCards (memory a).

(** [array.filter(index => index !== array[0])] *)
Definition withoutFirst (array : list nat) : list nat :=
  match array with
  | [] => []
  | first :: _ => filter (fun index => negb (index =? first)) array
  end.

(** The branch of [explorationMove] that blocks the player's areas; [None]
    when control falls through to the default exploration. *)
Definition blockingMove (a : t) (unknownCards : list nat)
    : M Env (option (option nat * option nat)) :=
  patternAnalysis <- analyzePlayerPatterns a ;;
  if Qltb (4 # 10) (confidence patternAnalysis) then
    r <- random Math_random ;;
    if Qltb (sample r) (3 # 10) then
      c <- readConfig a ;;
      let gridCols := cols c in
      let blockedCards :=
        filter (fun index =>
                  existsb (Area_eqb (areaOf gridCols index)) (predictedAreas patternAnalysis))
               unknownCards in
      if 2 <=? length blockedCards then
        first <- random (randomChoice blockedCards) ;;
        second <- random (randomChoice (withoutFirst blockedCards)) ;;
        ret (Some (first, second))
      else ret None
    else ret None
  else ret None.

Definition explorationMove (availableCards : list nat) : M Env (option nat * option nat) :=
  a <- self ;;
  let unknownCards :=
    filter (fun index => negb (JsMap.has Nat.eqb (memory a) index)) availableCards in
  if length unknownCards <? 2 then
    first <- random (randomChoice availableCards) ;;
    second <- random (randomChoice (withoutFirst availableCards)) ;;
    ret (first, second)
  else
    blocked <- blockingMove a unknownCards ;;
    match blocked with
    | Some move => ret move
    | None =>
        firstCard <- random (randomChoice unknownCards) ;;
        secondCard <-
          random (randomChoice
                    (filter (fun index =>
                               match firstCard with
                               | Some f => negb (index =? f)
                               | None => true
                               end) unknownCards)) ;;
        ret (firstCard, secondCard)
    end.

Definition makeMove (availableCards : list nat) : M Env (option nat * option nat) :=
  a <- self ;;
  calculateThinkingTime a ;;
  match findKnownPairs a availableCards with
  | Some (card1, card2) => ret (Some card1, Some card2)
  | None =>
      match probabilityBasedMove a availableCards with
      | Some (card1, card2) => ret (Some card1, Some card2)
      | None => explorationMove availableCards
      end
  end.

Definition learnFromMove (cards : nat * nat) (wasMatch : bool) (symbols : Symbol * Symbol)
    : M t unit :=
  a <- get ;;
  (if wasMatch then
     modify (with_memoryAccuracy (Qmin (99 # 100) (memoryAccuracy a + (1 # 100))))
   else
     c <- readConfig a ;;
     modify (with_memoryAccuracy
               (Qmax (aiAccuracy c * (8 # 10)) (memoryAccuracy a - (5 # 1000))))) ;;
  a <- get ;;
  let gameProgress := (ofNat (length (knownPairs a)) / ofNat (length SYMBOLS))%Q in
  modify (with_explorationRate (Qmax (1 # 10) ((5 # 10) - gameProgress * (4 # 10)))).

(** [Set.prototype.add] *)
Definition addSymbol (s : Symbol) (set : list Symbol) : list Symbol :=
  if existsb (Symbol_eqb s) set then set else set ++ [s].

Definition recordMoveResult (cards : nat * nat) (wasMatch : bool)
    (symbols : Symbol * Symbol) : M t unit :=
  modify (fun a =>
    with_gameHistory
      (gameHistory a ++ [{| historyCards := cards; historyWasMatch := wasMatch;
                            historySymbols := symbols; historyMoveNumber := moveCount a |}])
      a) ;;
  when wasMatch (modify (fun a => with_knownPairs (addSymbol (fst symbols) (knownPairs a)) a)) ;;
  learnFromMove cards wasMatch symbols.

(** [this.config = DIFFICULTIES[newDifficulty]].  An own entry of the table
    is a profile; a missing one is [undefined]; an inherited member of
    [Object.prototype] is an object without [rows], [cols] or [aiAccuracy],
    for which the record has no value. *)
Definition assignConfig (newDifficulty : string) : M t unit :=
  match DIFFICULTIES newDifficulty with
  | Profile c => modify (with_config (Some c))
  | Undefined => modify (with_config None)
  | Inherited => throw Unmodelled
  end.

Definition setDifficulty (newDifficulty : string) : M t unit :=
  modify (with_difficulty newDifficulty) ;;
  assignConfig newDifficulty ;;
  a <- get ;;
  c <- readConfig a ;;
  modify (with_memoryAccuracy (aiAccuracy c)) ;;
  modify reset.




(** The object as [new MemoryAI(difficulty)] has it before [this.config] is
    assigned. *)
Definition blank (difficulty : string) : t :=
  {| difficulty := difficulty; memory := []; probabilityMatrix := [];
     playerPatterns := []; gameHistory := []; thinkingTime := 1500;
     config := None; memoryAccuracy := 0; explorationRate := 3 # 10;
     knownPairs := []; revealedCards := []; moveCount := 0 |}.

(** [new MemoryAI(difficulty)] *)
Definition new (difficulty : string) : Result unit * t :=
  (assignConfig difficulty ;;
   a <- get ;;
   c <- readConfig a ;;
   modify (with_memoryAccuracy (aiAccuracy c)) ;;
   modify reset) (blank difficulty).

End MemoryAI.

(** ** [GameUI]

    Of the page only what the controller can tell apart later is kept: how
    many card elements the board holds, which of them carry the class
    [flipped], and the result shown by the game-over dialog. *)

Module Player.
Inductive t : Type := player | ai.

Definition eqb (x y : t) : bool :=
  match x, y with
  | player, player | ai, ai => true
  | _, _ => false
  end.
End Player.

Module GameUI.

Inductive Winner : Type := tie | playerWins | aiWins.

(** [gameResult]; [gameTime] is wall-clock time and is left out. *)
Record GameResult : Type :=
  { winner : Winner;
    resultPlayerScore : nat;
    resultAiScore : nat;
    totalMoves : nat;
    resultDifficulty : string }.

Record t : Type :=
  { cardElements : nat;
    flipped : list nat;
    gameOver : option GameResult }.

Definition new : t := {| cardElements := 0; flipped := []; gameOver := None |}.

Definition addClass (index : nat) (classList : list nat) : list nat :=
  if includes classList index then classList else classList ++ [index].

Definition removeClass (index : nat) (classList : list nat) : list nat :=
  filter (fun i => negb (i =? index)) classList.

(** [getCardElement(cardIndex)] finds an element for the indices of the board. *)
Definition hasElement (u : t) (cardIndex : option nat) : option nat :=
  match cardIndex with
  | Some i => if i <? cardElements u then Some i else None
  | None => None
  end.

Definition flipCard (cardIndex : option nat) (u : t) : t :=
  match hasElement u cardIndex with
  | Some i => {| cardElements := cardElements u; flipped := addClass i (flipped u);
                 gameOver := gameOver u |}
  | None => u
  end.

Definition flipCardBack (cardIndex : option nat) (u : t) : t :=
  match hasElement u cardIndex with
  | Some i => {| cardElements := cardElements u; flipped := removeClass i (flipped u);
                 gameOver := gameOver u |}
  | None => u
  end.

Definition markCardsAsMatched (cardIndices : list nat) (u : t) : t :=
  fold_left (fun u i => flipCard (Some i) u) cardIndices u.

Definition showGameOverModal (gameResult : GameResult) (u : t) : t :=
  {| cardElements := cardElements u; flipped := flipped u; gameOver := Some gameResult |}.

Definition reset (u : t) : t :=
  {| cardElements := 0; flipped := []; gameOver := gameOver u |}.

Definition createGameBoard {A} (cards : list A) (u : t) : t :=
  {| cardElements := length cards; flipped := []; gameOver := gameOver u |}.

End GameUI.

(** ** [MemoryGame] *)

Module MemoryGame.
Import GameUtils.

Record Card : Type :=
  { symbol : Symbol; symbolName : string; pairId : nat }.

Record GameState : Type :=
  { cards : list Card;
    flippedCards : list (option nat);
    matchedPairs : list (nat * nat);
    currentPlayer : Player.t;
    playerScore : nat;
    aiScore : nat;
    moves : nat;
    isGameActive : bool;
    difficulty : string }.

Record t : Type :=
  { ui : GameUI.t;
    ai : MemoryAI.t;
    gameState : GameState;
    config : DifficultyConfig;
    totalPairs : Q }.

Definition with_cards (x : list Card) (g : GameState) : GameState :=
  {| cards := x; flippedCards := flippedCards g; matchedPairs := matchedPairs g;
     currentPlayer := currentPlayer g; playerScore := playerScore g; aiScore := aiScore g;
     moves := moves g; isGameActive := isGameActive g; difficulty := difficulty g |}.

Definition with_flippedCards (x : list (option nat)) (g : GameState) : GameState :=
  {| cards := cards g; flippedCards := x; matchedPairs := matchedPairs g;
     currentPlayer := currentPlayer g; playerScore := playerScore g; aiScore := aiScore g;
     moves := moves g; isGameActive := isGameActive g; difficulty := difficulty g |}.

Definition with_matchedPairs (x : list (nat * nat)) (g : GameState) : GameState :=
  {| cards := cards g; flippedCards := flippedCards g; matchedPairs := x;
     currentPlayer := currentPlayer g; playerScore := playerScore g; aiScore := aiScore g;
     moves := moves g; isGameActive := isGameActive g; difficulty := difficulty g |}.

Definition with_currentPlayer (x : Player.t) (g : GameState) : GameState :=
  {| cards := cards g; flippedCards := flippedCards g; matchedPairs := matchedPairs g;
     currentPlayer := x; playerScore := playerScore g; aiScore := aiScore g;
     moves := moves g; isGameActive := isGameActive g; difficulty := difficulty g |}.

Definition with_playerScore (x : nat) (g : GameState) : GameState :=
  {| cards := cards g; flippedCards := flippedCards g; matchedPairs := matchedPairs g;
     currentPlayer := currentPlayer g; playerScore := x; aiScore := aiScore g;
     moves := moves g; isGameActive := isGameActive g; difficulty := difficulty g |}.

Definition with_aiScore (x : nat) (g : GameState) : GameState :=
  {| cards := cards g; flippedCards := flippedCards g; matchedPairs := matchedPairs g;
     currentPlayer := currentPlayer g; playerScore := playerScore g; aiScore := x;
     moves := moves g; isGameActive := isGameActive g; difficulty := difficulty g |}.

Definition with_moves (x : nat) (g : GameState) : GameState :=
  {| cards := cards g; flippedCards := flippedCards g; matchedPairs := matchedPairs g;
     currentPlayer := currentPlayer g; playerScore := playerScore g; aiScore := aiScore g;
     moves := x; isGameActive := isGameActive g; difficulty := difficulty g |}.

Definition with_isGameActive (x : bool) (g : GameState) : GameState :=
  {| cards := cards g; flippedCards := flippedCards g; matchedPairs := matchedPairs g;
     currentPlayer := currentPlayer g; playerScore := playerScore g; aiScore := aiScore g;
     moves := moves g; isGameActive := x; difficulty := difficulty g |}.

Definition with_difficulty (x : string) (g : GameState) : GameState :=
  {| cards := cards g; flippedCards := flippedCards g; matchedPairs := matchedPairs g;
     currentPlayer := currentPlayer g; playerScore := playerScore g; aiScore := aiScore g;
     moves := moves g; isGameActive := isGameActive g; difficulty := x |}.

Definition with_ui (x : GameUI.t) (m : t) : t :=
  {| ui := x; ai := ai m; gameState := gameState m; config := config m;
     totalPairs := totalPairs m |}.

Definition with_ai (x : MemoryAI.t) (m : t) : t :=
  {| ui := ui m; ai := x; gameState := gameState m; config := config m;
     totalPairs := totalPairs m |}.

Definition with_gameState (x : GameState) (m : t) : t :=
  {| ui := ui m; ai := ai m; gameState := x; config := config m;
     totalPairs := totalPairs m |}.

Definition with_config (x : DifficultyConfig) (m : t) : t :=
  {| ui := ui m; ai := ai m; gameState := gameState m; config := x;
     totalPairs := totalPairs m |}.

Definition with_totalPairs (x : Q) (m : t) : t :=
  {| ui := ui m; ai := ai m; gameState := gameState m; config := config m;
     totalPairs := x |}.

(** The controller together with the random source. *)
Abbreviation World := (t * Oracle)%type.

Definition this : M World t := fun w => (Ok (fst w), w).
Definition state : M World GameState := fun w => (Ok (gameState (fst w)), w).
Definition setState (f : GameState -> GameState) : M World unit :=
  fun w => (Ok tt, (with_gameState (f (gameState (fst w))) (fst w), snd w)).
Definition onUI (f : GameUI.t -> GameUI.t) : M World unit :=
  fun w => (Ok tt, (with_ui (f (ui (fst w))) (fst w), snd w)).
Definition onAI {A} (m : M MemoryAI.Env A) : M World A :=
  zoom (fun w => (ai (fst w), snd w)) (fun e w => (with_ai (fst e) (fst w), snd e)) m.
Definition random {A} (m : M Oracle A) : M World A :=
  zoom snd (fun rs w => (fst w, rs)) m.

Definition cardFor (i : nat) : Card :=
  let symbolIndex := i mod length SYMBOLS in
  {| symbol := nth symbolIndex SYMBOLS star;
     symbolName := nth symbolIndex SYMBOL_NAMES EmptyString;
     pairId := i |}.

(** [cardPairs] at the end of the loop of [generateCards], which runs for
    every natural number [i] below [pairsNeeded]. *)
Definition cardPairs (pairsNeeded : Q) : list Card :=
  flat_map (fun i => [cardFor i; cardFor i]) (seq 0 (Z.to_nat (Qceiling pairsNeeded))).

Definition generateCards : M World unit :=
  g <- this ;;
  let totalCards := rows (config g) * cols (config g) in
  let pairsNeeded := (ofNat totalCards / 2)%Q in
  shuffled <- random (shuffleArray (cardPairs pairsNeeded)) ;;
  setState (with_cards shuffled) ;;
  fun w => (Ok tt, (with_totalPairs pairsNeeded (fst w), snd w)).

Definition setupNewGame : M World unit :=
  setState (fun s =>
    with_isGameActive true
      (with_moves 0
        (with_aiScore 0
          (with_playerScore 0
            (with_currentPlayer Player.player
              (with_matchedPairs []
                (with_flippedCards []
                  (with_cards [] s)))))))) ;;
  onAI (MemoryAI.update MemoryAI.reset) ;;
  generateCards ;;
  onUI GameUI.reset ;;
  s <- state ;;
  onUI (GameUI.createGameBoard (cards s)).

Definition isCardMatched (s : GameState) (cardIndex : nat) : bool :=
  existsb (fun pair => (fst pair =? cardIndex) || (snd pair =? cardIndex)) (matchedPairs s).

Definition flippedIncludes (s : GameState) (cardIndex : nat) : bool :=
  existsb (fun i => match i with Some j => j =? cardIndex | None => false end)
          (flippedCards s).

Definition isValidCardClick (s : GameState) (cardIndex : nat) : bool :=
  if negb (Player.eqb (currentPlayer s) Player.player) then false
  else if negb (isGameActive s) then false
  else if flippedIncludes s cardIndex || isCardMatched s cardIndex then false
  else if 2 <=? length (flippedCards s) then false
  else true.

Definition getAvailableCards (s : GameState) : list nat :=
  filter (fun i => negb (flippedIncludes s i) && negb (isCardMatched s i))
         (seq 0 (length (cards s))).

(** [this.gameState.cards[index]] *)
Definition cardAt (s : GameState) (index : option nat) : option Card :=
  match index with
  | Some i => nth_error (cards s) i
  | None => None
  end.

Definition handleMatch (card1Index card2Index : nat) : M World unit :=
  setState (fun s => with_matchedPairs (matchedPairs s ++ [(card1Index, card2Index)]) s) ;;
  s <- state ;;
  (if Player.eqb (currentPlayer s) Player.player then
     setState (fun s => with_playerScore (playerScore s + 1) s)
   else
     setState (fun s => with_aiScore (aiScore s + 1) s)) ;;
  onUI (GameUI.markCardsAsMatched [card1Index; card2Index]).

Definition handleMismatch (card1Index card2Index : nat) : M World unit :=
  onUI (GameUI.flipCardBack (Some card1Index)) ;;
  onUI (GameUI.flipCardBack (Some card2Index)).

Definition switchTurn : M World unit :=
  setState (fun s =>
    with_currentPlayer
      (if Player.eqb (currentPlayer s) Player.player then Player.ai else Player.player) s).

Definition isGameComplete (g : t) : bool :=
  Qeq_bool (ofNat (length (matchedPairs (gameState g)))) (totalPairs g).

Definition winnerOf (s : GameState) : GameUI.Winner :=
  if aiScore s <? playerScore s then GameUI.playerWins
  else if playerScore s <? aiScore s then GameUI.aiWins
  else GameUI.tie.

(** [saveGameStats] writes to [localStorage] only. *)
Definition endGame : M World unit :=
  setState (with_isGameActive false) ;;
  s <- state ;;
  onUI (GameUI.showGameOverModal
          {| GameUI.winner := winnerOf s;
             GameUI.resultPlayerScore := playerScore s;
             GameUI.resultAiScore := aiScore s;
             GameUI.totalMoves := moves s;
             GameUI.resultDifficulty := difficulty s |}).

(** The part of [evaluateMove] from the comparison of the two cards to the
    change of turn.  The answer is [false] when the method has returned
    after [endGame]. *)
Definition settleMove (card1Index card2Index : nat) (card1 card2 : Card) : M World bool :=
  let isMatch := pairId card1 =? pairId card2 in
  (if isMatch then handleMatch card1Index card2Index
   else handleMismatch card1Index card2Index) ;;
  onAI (MemoryAI.onSelf
          (MemoryAI.recordMoveResult (card1Index, card2Index) isMatch
             (symbol card1, symbol card2))) ;;
  setState (with_flippedCards []) ;;
  g <- this ;;
  if isGameComplete g then
    endGame ;; ret false
  else
    when (negb isMatch) switchTurn ;;
    ret true.

(** [evaluateMove], given the method [makeAIMove] it ends with. *)
Definition evaluateMove (makeAIMove : M World unit) : M World unit :=
  s <- state ;;
  let card1Index := nth 0 (flippedCards s) None in
  let card2Index := nth 1 (flippedCards s) None in
  let card1 := cardAt s card1Index in
  let card2 := cardAt s card2Index in
  setState (fun s => with_moves (moves s + 1) s) ;;
  match card1Index, card1, card2Index, card2 with
  | Some i1, Some c1, Some i2, Some c2 =>
      goesOn <- settleMove i1 i2 c1 c2 ;;
      when goesOn
        (s <- state ;;
         when (Player.eqb (currentPlayer s) Player.ai) makeAIMove)
  | _, _, _, _ => throw TypeError
  end.

(** [makeAIMove], given the method [evaluateMove] it ends with. *)
Definition makeAIMove (evaluateMove : M World unit) : M World unit :=
  s <- state ;;
  if negb (Player.eqb (currentPlayer s) Player.ai) then ret tt
  else
    let availableCards := getAvailableCards s in
    if length availableCards <? 2 then ret tt
    else
      ' (firstCard, secondCard) <- onAI (MemoryAI.makeMove availableCards) ;;
      onUI (GameUI.flipCard firstCard) ;;
      setState (fun s => with_flippedCards (flippedCards s ++ [firstCard]) s) ;;
      onUI (GameUI.flipCard secondCard) ;;
      setState (fun s => with_flippedCards (flippedCards s ++ [secondCard]) s) ;;
      s <- state ;;
      match firstCard, cardAt s firstCard with
      | Some first, Some card1 =>
          onAI (MemoryAI.observeCard first (symbol card1) false) ;;
          match secondCard, cardAt s secondCard with
          | Some second, Some card2 =>
              onAI (MemoryAI.observeCard second (symbol card2) false) ;;
              evaluateMove
          | _, _ => throw TypeError
          end
      | _, _ => throw TypeError
      end.

Definition makePlayerMove (evaluateMove : M World unit) (cardIndex : nat) : M World unit :=
  onUI (GameUI.flipCard (Some cardIndex)) ;;
  setState (fun s => with_flippedCards (flippedCards s ++ [Some cardIndex]) s) ;;
  s <- state ;;
  match nth_error (cards s) cardIndex with
  | Some card =>
      onAI (MemoryAI.observeCard cardIndex (symbol card) true) ;;
      s <- state ;;
      when (length (flippedCards s) =? 2) evaluateMove
  | None => throw TypeError
  end.

Definition handleCardClick (evaluateMove : M World unit) (cardIndex : nat) : M World unit :=
  s <- state ;;
  if negb (isValidCardClick s cardIndex) then ret tt
  else
    when (negb (isGameActive s)) (setState (with_isGameActive true)) ;;
    makePlayerMove evaluateMove cardIndex.

(** [saveSettings] and [ui.selectDifficulty] leave the controller alone. *)
Definition changeDifficulty (difficulty : string) : M World unit :=
  match DIFFICULTIES difficulty with
  | Undefined => ret tt
  | Profile c =>
      setState (with_difficulty difficulty) ;;
      (fun w => (Ok tt, (with_config c (fst w), snd w))) ;;
      onAI (MemoryAI.onSelf (MemoryAI.setDifficulty difficulty)) ;;
      setupNewGame
  | Inherited =>
      setState (with_difficulty difficulty) ;;
      throw Unmodelled
  end.

Definition loadSettings (savedDifficulty : string) : M World unit :=
  s <- state ;;
  if String.eqb savedDifficulty (difficulty s) then ret tt
  else changeDifficulty savedDifficulty.

(** The state the constructor builds before it calls [loadSettings]. *)
Definition initial (opponent : MemoryAI.t) : t :=
  {| ui := GameUI.new;
     ai := opponent;
     gameState :=
       {| cards := []; flippedCards := []; matchedPairs := [];
          currentPlayer := Player.player; playerScore := 0; aiScore := 0; moves := 0;
          isGameActive := false; difficulty := "beginner" |};
     config := beginner;
     totalPairs := (ofNat (rows beginner * cols beginner) / 2)%Q |}.

(** [new MemoryGame()] followed by [init()], for the difficulty found in the
    settings store and a random source. *)
Definition start (savedDifficulty : string) (rs : Oracle) : Result unit * World :=
  let (built, opponent) := MemoryAI.new "beginner" in
  match built with
  | Ok _ => (loadSettings savedDifficulty ;; setupNewGame) (initial opponent, rs)
  | Throw e => (Throw e, (initial opponent, rs))
  end.

End MemoryGame.

(** ** The match as a transition system

    A handler runs from one pause to the next.  The three segments are the
    handlers with the method they end with cut off: a reveal request of the
    human player, the resolution of the two revealed cards, and the two
    reveals of the opponent. *)

Module Match.
Import MemoryGame.

Definition reveal (cardIndex : nat) : M World unit := handleCardClick (ret tt) cardIndex.
Definition resolve : M World unit := evaluateMove (ret tt).
Definition opponentReveal : M World unit := makeAIMove (ret tt).

Definition stateOf (w : World) : GameState := gameState (fst w).

(** The page offers the cards of the board only; a resolution follows the
    second reveal; the opponent moves when a resolution has left it the turn. *)
Inductive step : World -> World -> Prop :=
| step_reveal (w w' : World) (cardIndex : nat) :
    cardIndex < length (cards (stateOf w)) ->
    reveal cardIndex w = (Ok tt, w') ->
    step w w'
| step_resolve (w w' : World) :
    length (flippedCards (stateOf w)) = 2 ->
    resolve w = (Ok tt, w') ->
    step w w'
| step_opponent (w w' : World) :
    flippedCards (stateOf w) = [] ->
    currentPlayer (stateOf w) = Player.ai ->
    isGameActive (stateOf w) = true ->
    opponentReveal w = (Ok tt, w') ->
    step w w'.

Inductive reachable : World -> Prop :=
| reach_start (savedDifficulty : string) (rs : Oracle) (w : World) :
    start savedDifficulty rs = (Ok tt, w) -> reachable w
| reach_step (w w' : World) :
    reachable w -> step w w' -> reachable w'.

Inductive steps : World -> World -> Prop :=
| steps_none (w : World) : steps w w
| steps_more (w w1 w' : World) : step w w1 -> steps w1 w' -> steps w w'.

(** The two methods with the recursion closed: [evaluateMove] calling
    [makeAIMove] calling [evaluateMove], at most [depth] resolutions deep. *)
Fixpoint evaluateMoveAll (depth : nat) : M World unit :=
  match depth with
  | 0 => throw Exhausted
  | S d => evaluateMove (makeAIMove (evaluateMoveAll d))
  end.

(** The handler of the event [cardClicked], run to its end.  The depth is
    more than the opponent can ever need (theorem [cardClicked_terminates]). *)
Definition cardClicked (cardIndex : nat) : M World unit :=
  fun w => handleCardClick (evaluateMoveAll (S (length (cards (stateOf w))))) cardIndex w.

End Match.

(** ** Worlds used as concrete inputs *)

Module Scenario.
Import GameUtils MemoryGame.

(** A beginner match on the board that the shuffle gives when every draw is 0. *)
Definition fresh : World := snd (start "beginner" []).

Definition low : Unit01 := zero01.
Definition half : Unit01 := {| sample := 1 # 2; sample_ok := eq_refl |}.
Definition high : Unit01 := {| sample := 995 # 1000; sample_ok := eq_refl |}.

(** A beginner opponent that has seen, and kept, the square on card 13. *)
Definition oneKnown : MemoryAI.Env :=
  snd (MemoryAI.observeCard 13 square false (snd (MemoryAI.new "beginner"), [low; high; low])).

End Scenario.

(** A run of the match, one segment after the other, each checked to be
    enabled and to return normally. *)
Module Replay.
Import GameUtils MemoryGame Match.

Inductive Action : Type :=
| Reveal (cardIndex : nat)
| Resolve
| Opponent.

Definition normally (r : Result unit * World) : option World :=
  match r with
  | (Ok _, w) => Some w
  | (Throw _, _) => None
  end.

Definition exec (a : Action) (w : World) : option World :=
  match a with
  | Reveal cardIndex =>
      if cardIndex <? length (cards (stateOf w)) then normally (reveal cardIndex w) else None
  | Resolve =>
      if length (flippedCards (stateOf w)) =? 2 then normally (resolve w) else None
  | Opponent =>
      match flippedCards (stateOf w), currentPlayer (stateOf w), isGameActive (stateOf w) with
      | [], Player.ai, true => normally (opponentReveal w)
      | _, _, _ => None
      end
  end.

Fixpoint execAll (actions : list Action) (w : World) : option World :=
  match actions with
  | [] => Some w
  | a :: rest =>
      match exec a w with
      | Some w' => execAll rest w'
      | None => None
      end
  end.

(** On the board of [Scenario.fresh] the pairs sit on the cards (0, 15),
    (1, 2), (3, 4), ... (13, 14).  The player takes six pairs, all forgotten
    by the opponent, then turns up 0 and 13, of which the opponent keeps 13;
    the opponent finds (0, 15) by exploration and moves again with 13 and 14
    left. *)
Definition samples : Oracle :=
  repeat Scenario.low 15 ++ repeat Scenario.high 13
  ++ [Scenario.low; Scenario.low; Scenario.half; Scenario.high; Scenario.high;
      Scenario.high; Scenario.low; Scenario.high; Scenario.high].

Definition playerTakesSixPairs : list Action :=
  [Reveal 1; Reveal 2; Resolve; Reveal 3; Reveal 4; Resolve;
   Reveal 5; Reveal 6; Resolve; Reveal 7; Reveal 8; Resolve;
   Reveal 9; Reveal 10; Resolve; Reveal 11; Reveal 12; Resolve].

Definition lastTwoPairs : list Action :=
  playerTakesSixPairs ++ [Reveal 0; Reveal 13; Resolve; Opponent; Resolve; Opponent].

Definition finish (actions : list Action) : World :=
  match execAll actions (snd (start "beginner" samples)) with
  | Some w => w
  | None => Scenario.fresh
  end.

(** The world after the second pair of reveals of the opponent, and the one
    after the resolution that follows. *)
Definition secondOpponentReveal : World := finish lastTwoPairs.
Definition lastResolution : World := finish (lastTwoPairs ++ [Resolve]).

End Replay.

(** * Specification vocabulary *)

Import GameUtils MemoryGame Match.

Ltac run := unfold bind, ret, when, state, this, setState, onUI, get, modify, throw; simpl.

Definition levels : list string := ["beginner"; "intermediate"; "advanced"; "expert"].


(** ** Computations that keep a relation between the state before and after *)

Class Frame {S : Type} (R : S -> S -> Prop) : Prop :=
  { frame_refl : forall s, R s s;
    frame_trans : forall a b c, R a b -> R b c -> R a c }.

Definition preserves {S A} (R : S -> S -> Prop) (m : M S A) : Prop :=
  forall s, R s (snd (m s)).

(** The configured profile and the recall accuracy are untouched. *)
Definition sameProfile (a a' : MemoryAI.t) : Prop :=
  MemoryAI.config a' = MemoryAI.config a /\
  MemoryAI.memoryAccuracy a' = MemoryAI.memoryAccuracy a /\
  MemoryAI.difficulty a' = MemoryAI.difficulty a.




(** The positions of a board that carry a given pair identifier. *)
Definition positionsOf (pid : nat) (board : list Card) : list nat :=
  filter (fun i => match nth_error board i with
                   | Some c => pairId c =? pid
                   | None => false
                   end)
         (seq 0 (length board)).



(** How often a symbol occurs in the belief mapping. *)
Definition occurrences (s : Symbol) (belief : list (nat * Symbol)) : nat :=
  length (filter (fun kv => Symbol_eqb (snd kv) s) belief).

(** The positions of the board that the belief mapping does not hold. *)
Definition unknownPositions (totalCards : nat) (belief : list (nat * Symbol)) : list nat :=
  filter (fun i => negb (JsMap.has Nat.eqb belief i)) (seq 0 totalCards).

(** The estimate the specification asks for. *)
Definition expectedProbability (c : DifficultyConfig) (belief : list (nat * Symbol))
    (s : Symbol) : Q :=
  let totalCards := rows c * cols c in
  Qmax 0 ((ofNat totalCards / ofNat (length SYMBOLS) - ofNat (occurrences s belief))
          / ofNat (length (unknownPositions totalCards belief))).

(** A belief mapping over the positions of a board. *)
Definition beliefOnBoard (totalCards : nat) (belief : list (nat * Symbol)) : Prop :=
  NoDup (JsMap.keys belief) /\ forall k, In k (JsMap.keys belief) -> k < totalCards.

(** A method keeps the belief mapping over the positions of the board. *)
Definition keepsBelief (totalCards : nat) (a a' : MemoryAI.t) : Prop :=
  beliefOnBoard totalCards (MemoryAI.memory a) ->
  beliefOnBoard totalCards (MemoryAI.memory a').

(** A method leaves the belief mapping as it is. *)
Definition sameMemory (a a' : MemoryAI.t) : Prop :=
  MemoryAI.memory a' = MemoryAI.memory a.

(** [counts.get(symbol) || 0] *)
Definition countOr0 (counts : list (Symbol * nat)) (s : Symbol) : nat :=
  match JsMap.get Symbol_eqb counts s with Some n => n | None => 0 end.


(** Only cards of the board carry the class [flipped]. *)
Definition uiSound (u : GameUI.t) : Prop :=
  forall i, In i (GameUI.flipped u) -> i < GameUI.cardElements u.

Definition other (p : Player.t) : Player.t :=
  match p with Player.player => Player.ai | Player.ai => Player.player end.

Definition profiles : list DifficultyConfig := [beginner; intermediate; advanced; expert].

(** What holds in every world of a match. *)
Definition invariant (w : World) : Prop :=
  let s := stateOf w in
  (forall x, In x (flippedCards s) -> exists i, x = Some i /\ i < length (cards s)) /\
  length (flippedCards s) <= 2 /\
  (flippedCards s <> [] -> isGameActive s = true) /\
  isGameActive s = negb (isGameComplete (fst w)) /\
  MemoryAI.config (ai (fst w)) = Some (config (fst w)) /\
  uiSound (ui (fst w)) /\
  In (config (fst w)) profiles /\
  totalPairs (fst w) = (ofNat (rows (config (fst w)) * cols (config (fst w))) / 2)%Q /\
  beliefOnBoard (rows (config (fst w)) * cols (config (fst w)))
                (MemoryAI.memory (ai (fst w))) /\
  length (cards s) = rows (config (fst w)) * cols (config (fst w)) /\
  2 * length (matchedPairs s) <= rows (config (fst w)) * cols (config (fst w)).

Definition matchedCount (w : World) : nat := length (matchedPairs (stateOf w)).




(** A bound on the resolutions one click can still set off: the cards not
    yet matched, and two more while the turn is the player's. *)
Definition resolutionsLeft (w : World) : nat :=
  length (cards (stateOf w)) - 2 * matchedCount w
  + match currentPlayer (stateOf w) with Player.player => 2 | Player.ai => 0 end.

(** ** What a match keeps *)

(** A property of the state that a computation does not lose. *)
Definition keeps {S : Type} (P : S -> Prop) (s s' : S) : Prop := P s -> P s'.

(** Every card the opponent remembers carries the symbol it remembers. *)
Definition truthful (board : list Card) (memory : list (nat * Symbol)) : Prop :=
  forall i sym, JsMap.get Nat.eqb memory i = Some sym ->
    exists card, nth_error board i = Some card /\ symbol card = sym.

(** The card is revealed this turn or matched. *)
Definition faceUp (s : GameState) (i : nat) : bool :=
  flippedIncludes s i || isCardMatched s i.

(** The result the game-over dialog shows is the one of this match. *)
Definition resultOf (s : GameState) : GameUI.GameResult :=
  {| GameUI.winner := winnerOf s;
     GameUI.resultPlayerScore := playerScore s;
     GameUI.resultAiScore := aiScore s;
     GameUI.totalMoves := moves s;
     GameUI.resultDifficulty := difficulty s |}.

Definition consistent (w : World) : Prop :=
  let s := stateOf w in
  playerScore s + aiScore s = length (matchedPairs s) /\
  length (matchedPairs s) <= moves s /\
  (forall i, flippedIncludes s i = true -> isCardMatched s i = false) /\
  GameUI.cardElements (ui (fst w)) = length (cards s) /\
  (forall i, In i (GameUI.flipped (ui (fst w))) <-> faceUp s i = true) /\
  truthful (cards s) (MemoryAI.memory (ai (fst w))) /\
  (isGameActive s = false -> GameUI.gameOver (ui (fst w)) = Some (resultOf s)) /\
  (forall pair, In pair (matchedPairs s) ->
     fst pair < length (cards s) /\ snd pair < length (cards s)).
(** * Properties *)

(** ** Reveal requests that fail validation *)

Lemma existsb_flipped (s : GameState) (i : nat) :
  In (Some i) (flippedCards s) -> flippedIncludes s i = true.
Proof.
  unfold flippedIncludes. intro H. apply existsb_exists.
  exists (Some i). split; [assumption | apply Nat.eqb_refl].
Qed.

Lemma existsb_matched (s : GameState) (i : nat) :
  (exists pair, In pair (matchedPairs s) /\ (fst pair = i \/ snd pair = i)) ->
  isCardMatched s i = true.
Proof.
  intros [pair [Hin Hor]]. unfold isCardMatched. apply existsb_exists.
  exists pair. split; [assumption|].
  apply orb_true_iff. destruct Hor as [H|H]; [left|right]; now apply Nat.eqb_eq.
Qed.

(** C8: a reveal request made on the wrong turn, in a match that is not
    active, on a card already revealed this turn, on a matched card, or
    with two cards already revealed, is ignored: the handler returns
    normally and the whole world (game state, opponent, page and random
    source) is the one it started from, whatever the handler would have
    gone on with. *)
Theorem C8_rejected_reveal_changes_nothing
    (evaluateMove : M World unit) (w : World) (cardIndex : nat) :
  currentPlayer (stateOf w) <> Player.player \/
  isGameActive (stateOf w) = false \/
  In (Some cardIndex) (flippedCards (stateOf w)) \/
  (exists pair, In pair (matchedPairs (stateOf w)) /\
                (fst pair = cardIndex \/ snd pair = cardIndex)) \/
  2 <= length (flippedCards (stateOf w)) ->
  isValidCardClick (stateOf w) cardIndex = false /\
  handleCardClick evaluateMove cardIndex w = (Ok tt, w).
Proof.
  intro H.
  assert (Hv : isValidCardClick (stateOf w) cardIndex = false).
  { unfold isValidCardClick.
    destruct H as [H | [H | [H | [H | H]]]].
    - destruct (currentPlayer (stateOf w)); [now elim H | reflexivity].
    - rewrite H. now destruct (Player.eqb _ _).
    - rewrite (existsb_flipped _ _ H). simpl.
      destruct (Player.eqb _ _), (isGameActive _); reflexivity.
    - rewrite (existsb_matched _ _ H). rewrite orb_true_r.
      destruct (Player.eqb _ _), (isGameActive _); reflexivity.
    - apply Nat.leb_le in H. rewrite H.
      destruct (Player.eqb _ _), (isGameActive _), (_ || _); reflexivity. }
  split; [exact Hv|].
  unfold handleCardClick, stateOf in *. run. now rewrite Hv.
Qed.

Lemma C8_witness :
  isGameActive (stateOf (initial (snd (MemoryAI.new "beginner")), [])) = false /\
  handleCardClick (ret tt) 3 (initial (snd (MemoryAI.new "beginner")), [])
  = (Ok tt, (initial (snd (MemoryAI.new "beginner")), [])).
Proof.
  split; [reflexivity|].
  apply (C8_rejected_reveal_changes_nothing (ret tt)
           (initial (snd (MemoryAI.new "beginner")), []) 3).
  right; left; reflexivity.
Defined.


(** ** The frame of the match-handling step *)

Lemma onAI_frame {A} (m : M MemoryAI.Env A) (w w' : World) (r : Result A) :
  onAI m w = (r, w') ->
  gameState (fst w') = gameState (fst w) /\ ui (fst w') = ui (fst w) /\
  config (fst w') = config (fst w) /\ totalPairs (fst w') = totalPairs (fst w).
Proof.
  unfold onAI, zoom. destruct (m _) as [r0 e]. intro H. inversion H; subst. simpl.
  repeat split.
Qed.

Lemma recordMoveResult_match (cards : nat * nat) (symbols : Symbol * Symbol)
    (a : MemoryAI.t) :
  exists a', MemoryAI.recordMoveResult cards true symbols a = (Ok tt, a').
Proof.
  unfold MemoryAI.recordMoveResult, MemoryAI.learnFromMove. run. eexists. reflexivity.
Qed.

(** C10: when the two revealed cards have equal pair identifiers, the part
    of [evaluateMove] that handles them returns normally; the score of the
    player to move goes up by one and the other score stays; the pair is
    appended to the matched pairs and the revealed list is emptied; the
    cards, the player to move, the number of moves and the difficulty are
    unchanged, and so is the active flag unless the pair completes the
    match, in which case it is down. *)
Theorem C10_match_frame (w : World) (i1 i2 : nat) (c1 c2 : Card) :
  pairId c1 = pairId c2 ->
  exists (w' : World) (goesOn : bool),
    settleMove i1 i2 c1 c2 w = (Ok goesOn, w') /\
    let s := stateOf w in
    let s' := stateOf w' in
    playerScore s' = playerScore s + (if Player.eqb (currentPlayer s) Player.player then 1 else 0) /\
    aiScore s' = aiScore s + (if Player.eqb (currentPlayer s) Player.player then 0 else 1) /\
    matchedPairs s' = matchedPairs s ++ [(i1, i2)] /\
    flippedCards s' = [] /\
    cards s' = cards s /\
    currentPlayer s' = currentPlayer s /\
    moves s' = moves s /\
    difficulty s' = difficulty s /\
    isGameActive s' = (if goesOn then isGameActive s else false) /\
    goesOn = negb (Qeq_bool (ofNat (length (matchedPairs s) + 1)) (totalPairs (fst w))) /\
    config (fst w') = config (fst w) /\
    totalPairs (fst w') = totalPairs (fst w).
Proof.
  intro Heq. apply Nat.eqb_eq in Heq.
  unfold settleMove. rewrite Heq. unfold handleMatch, stateOf. run.
  destruct w as [g rs]. simpl.
  unfold onAI, zoom, MemoryAI.onSelf. simpl.
  unfold isGameComplete. simpl.
  destruct (Player.eqb (currentPlayer (gameState g)) Player.player) eqn:Hp; simpl;
    rewrite !length_app; simpl;
    destruct (Qeq_bool _ _) eqn:Hc; simpl;
    eexists; eexists; (split; [reflexivity|]); simpl; repeat split; lia.
Qed.

Lemma C10_witness :
  pairId (cardFor 1) = pairId (cardFor 1) /\
  exists (w' : World) (goesOn : bool),
    settleMove 1 2 (cardFor 1) (cardFor 1) Scenario.fresh = (Ok goesOn, w') /\
    playerScore (stateOf w') = 1 /\ aiScore (stateOf w') = 0.
Proof.
  split; [reflexivity|].
  destruct (C10_match_frame Scenario.fresh 1 2 (cardFor 1) (cardFor 1) eq_refl)
    as (w' & goesOn & Hrun & Hp & Ha & _).
  exists w', goesOn. split; [exact Hrun|]. split; [exact Hp | exact Ha].
Defined.

(** ** Difficulty levels that the table does not have *)





(** The guard of [changeDifficulty] lets the name of an inherited member
    through: the call is then no no-op. *)
Remark changeDifficulty_inherited_member :
  ~ In "constructor" levels /\
  DIFFICULTIES "constructor" = Inherited /\
  fst (changeDifficulty "constructor" Scenario.fresh) = Throw Unmodelled /\
  difficulty (stateOf (snd (changeDifficulty "constructor" Scenario.fresh))) = "constructor".
Proof.
  split.
  { simpl. intros [H|[H|[H|[H|[]]]]]; discriminate H. }
  repeat split.
Qed.

Section Preserves.
Context {S : Type} (R : S -> S -> Prop) `{Frame S R}.

Lemma preserves_ret {A} (a : A) : preserves R (ret a).
Proof. intro s. apply frame_refl. Qed.

Lemma preserves_throw {A} (x : Error) : preserves R (@throw S A x).
Proof. intro s. apply frame_refl. Qed.

Lemma preserves_get : preserves R get.
Proof. intro s. apply frame_refl. Qed.

Lemma preserves_modify (f : S -> S) : (forall s, R s (f s)) -> preserves R (modify f).
Proof. intros Hf s. apply Hf. Qed.

Lemma preserves_bind {A B} (m : M S A) (k : A -> M S B) :
  preserves R m -> (forall a, preserves R (k a)) -> preserves R (bind m k).
Proof.
  intros Hm Hk s. unfold bind. specialize (Hm s).
  destruct (m s) as [[a|x] s1]; simpl in *; [|exact Hm].
  eapply frame_trans; [exact Hm | apply Hk].
Qed.

Lemma preserves_when (b : bool) (m : M S unit) :
  preserves R m -> preserves R (when b m).
Proof. intro Hm. destruct b; [exact Hm | apply preserves_ret]. Qed.

Lemma preserves_zoom {T A} (RT : T -> T -> Prop) (proj : S -> T) (upd : T -> S -> S)
    (m : M T A) :
  (forall s t, RT (proj s) t -> R s (upd t s)) ->
  preserves RT m -> preserves R (zoom proj upd m).
Proof.
  intros Hz Hm s. unfold zoom. specialize (Hm (proj s)).
  destruct (m (proj s)) as [r t]. simpl in *. now apply Hz.
Qed.

End Preserves.

#[export] Instance Frame_eq {S : Type} : Frame (@eq S).
Proof. split; [reflexivity | intros; congruence]. Qed.

#[export] Instance Frame_sameProfile : Frame sameProfile.
Proof.
  split; unfold sameProfile; [tauto|].
  intros a b c (H1 & H2 & H3) (H4 & H5 & H6). repeat split; congruence.
Qed.

#[export] Instance Frame_onFst {S T} (R : S -> S -> Prop) `{Frame S R} :
  Frame (fun e e' : S * T => R (fst e) (fst e')).
Proof.
  split; [intros; apply frame_refl | intros a b c; apply frame_trans].
Qed.

Lemma preserves_random {A} (R : MemoryAI.t -> MemoryAI.t -> Prop) `{Frame _ R}
    (m : M Oracle A) :
  preserves (fun e e' => R (fst e) (fst e')) (MemoryAI.random m).
Proof. intro e. unfold MemoryAI.random, zoom. destruct (m (snd e)). apply frame_refl. Qed.

Lemma preserves_self (R : MemoryAI.t -> MemoryAI.t -> Prop) `{Frame _ R} :
  preserves (fun e e' => R (fst e) (fst e')) MemoryAI.self.
Proof. intro e. apply frame_refl. Qed.

Lemma preserves_readConfig {S} (R : S -> S -> Prop) `{Frame S R} (a : MemoryAI.t) :
  preserves R (MemoryAI.readConfig a).
Proof. intro e. unfold MemoryAI.readConfig. destruct (MemoryAI.config a); apply frame_refl. Qed.

Lemma preserves_update (R : MemoryAI.t -> MemoryAI.t -> Prop) (f : MemoryAI.t -> MemoryAI.t) :
  (forall a, R a (f a)) ->
  preserves (fun e e' => R (fst e) (fst e')) (MemoryAI.update f).
Proof. intros Hf e. apply Hf. Qed.

Lemma preserves_onSelf {A} (R : MemoryAI.t -> MemoryAI.t -> Prop) (m : M MemoryAI.t A) :
  preserves R m -> preserves (fun e e' => R (fst e) (fst e')) (MemoryAI.onSelf m).
Proof.
  intros Hm e. unfold MemoryAI.onSelf, zoom. specialize (Hm (fst e)).
  now destruct (m (fst e)).
Qed.

Ltac frame_step :=
  match goal with
  | |- preserves _ (bind _ _) => apply preserves_bind; [typeclasses eauto | |intro]
  | |- preserves _ (ret _) => apply preserves_ret; typeclasses eauto
  | |- preserves _ (throw _) => apply preserves_throw; typeclasses eauto
  | |- preserves _ get => apply preserves_get; typeclasses eauto
  | |- preserves _ (when _ _) => apply preserves_when; [typeclasses eauto|]
  | |- preserves _ (MemoryAI.random _) => apply preserves_random; typeclasses eauto
  | |- preserves _ MemoryAI.self => apply preserves_self; typeclasses eauto
  | |- preserves _ (MemoryAI.readConfig _) => apply preserves_readConfig; typeclasses eauto
  | |- preserves _ (MemoryAI.onSelf _) => apply preserves_onSelf
  | |- preserves _ (MemoryAI.update _) => apply preserves_update; intro
  | |- preserves _ (modify _) => apply preserves_modify; intro
  | |- preserves _ (if ?b then _ else _) => destruct b
  | |- preserves _ (match ?x with _ => _ end) => destruct x
  end.

Lemma updateProbabilities_sameProfile (s : Symbol) :
  preserves sameProfile (MemoryAI.updateProbabilities s).
Proof.
  unfold MemoryAI.updateProbabilities. repeat frame_step; repeat split.
Qed.

Lemma observeCard_sameProfile (index : nat) (symbol : Symbol) (isPlayer : bool) :
  preserves (fun e e' => sameProfile (fst e) (fst e'))
            (MemoryAI.observeCard index symbol isPlayer).
Proof.
  unfold MemoryAI.observeCard.
  repeat frame_step; try apply updateProbabilities_sameProfile; repeat split.
Qed.


(** [makeMove] and the strategies it tries only read the opponent. *)
Lemma analyzePlayerPatterns_readonly (a : MemoryAI.t) :
  preserves (fun e e' => fst e = fst e') (MemoryAI.analyzePlayerPatterns a).
Proof. unfold MemoryAI.analyzePlayerPatterns. repeat frame_step. Qed.

Lemma blockingMove_readonly (a : MemoryAI.t) (unknownCards : list nat) :
  preserves (fun e e' => fst e = fst e') (MemoryAI.blockingMove a unknownCards).
Proof.
  unfold MemoryAI.blockingMove.
  apply preserves_bind; [typeclasses eauto | apply analyzePlayerPatterns_readonly | intro].
  repeat frame_step.
Qed.

Lemma explorationMove_readonly (availableCards : list nat) :
  preserves (fun e e' => fst e = fst e') (MemoryAI.explorationMove availableCards).
Proof.
  unfold MemoryAI.explorationMove.
  apply preserves_bind; [typeclasses eauto | frame_step | intro a].
  destruct (_ <? 2); [repeat frame_step|].
  apply preserves_bind; [typeclasses eauto | apply blockingMove_readonly | intro].
  repeat frame_step.
Qed.

Lemma makeMove_readonly (availableCards : list nat) :
  preserves (fun e e' => fst e = fst e') (MemoryAI.makeMove availableCards).
Proof.
  unfold MemoryAI.makeMove, MemoryAI.calculateThinkingTime.
  apply preserves_bind; [typeclasses eauto | frame_step | intro a].
  apply preserves_bind; [typeclasses eauto | repeat frame_step | intro].
  destruct (MemoryAI.findKnownPairs _ _) as [[? ?]|]; [frame_step|].
  destruct (MemoryAI.probabilityBasedMove _ _) as [[? ?]|]; [frame_step|].
  apply explorationMove_readonly.
Qed.

(** ** The recall accuracy *)

Lemma profile_cases (d : string) (c : DifficultyConfig) :
  DIFFICULTIES d = Profile c ->
  c = beginner \/ c = intermediate \/ c = advanced \/ c = expert.
Proof.
  unfold DIFFICULTIES.
  repeat match goal with
         | |- context [if ?b then _ else _] => destruct b
         end; intro H; inversion H; tauto.
Qed.


Lemma recordMoveResult_match_accuracy (cards : nat * nat) (symbols : Symbol * Symbol)
    (a : MemoryAI.t) :
  exists a', MemoryAI.recordMoveResult cards true symbols a = (Ok tt, a') /\
             MemoryAI.config a' = MemoryAI.config a /\
             MemoryAI.memoryAccuracy a'
             = Qmin (99 # 100) (MemoryAI.memoryAccuracy a + (1 # 100)).
Proof.
  unfold MemoryAI.recordMoveResult, MemoryAI.learnFromMove. run.
  eexists. split; [reflexivity|]. split; reflexivity.
Qed.

Lemma recordMoveResult_miss_accuracy (cards : nat * nat) (symbols : Symbol * Symbol)
    (a : MemoryAI.t) (c : DifficultyConfig) :
  MemoryAI.config a = Some c ->
  exists a', MemoryAI.recordMoveResult cards false symbols a = (Ok tt, a') /\
             MemoryAI.config a' = MemoryAI.config a /\
             MemoryAI.memoryAccuracy a'
             = Qmax (aiAccuracy c * (8 # 10)) (MemoryAI.memoryAccuracy a - (5 # 1000)).
Proof.
  intro Hc. unfold MemoryAI.recordMoveResult, MemoryAI.learnFromMove, MemoryAI.readConfig.
  run. rewrite Hc. simpl. eexists. repeat split. simpl. exact Hc.
Qed.




(** ** The fallback of the exploration strategy *)

(** C1 fails on the code: a beginner opponent that remembers card 13 and
    nothing else, asked to choose among the cards 13 and 14, reaches the
    fallback of [explorationMove]; with a first draw of 0.995 it answers
    (14, 14), one card twice.  The second card is drawn from the cards
    without [availableCards[0]], not without the card drawn first. *)
Theorem C1_fallback_returns_one_card_twice :
  MemoryAI.findKnownPairs (fst Scenario.oneKnown) [13; 14] = None /\
  MemoryAI.probabilityBasedMove (fst Scenario.oneKnown) [13; 14] = None /\
  MemoryAI.makeMove [13; 14] Scenario.oneKnown
  = (Ok (Some 14, Some 14), (fst Scenario.oneKnown, [])).
Proof. repeat split. Qed.

(** ** Replaying a match *)

Lemma exec_step (a : Replay.Action) (w w' : World) :
  Replay.exec a w = Some w' -> step w w'.
Proof.
  destruct a as [cardIndex | | ]; simpl.
  - destruct (cardIndex <? _) eqn:Hlt; [|discriminate].
    apply Nat.ltb_lt in Hlt.
    destruct (reveal cardIndex w) as [[[]|x] w1] eqn:Hr; simpl; [|discriminate].
    intro H; inversion H; subst. now apply step_reveal with cardIndex.
  - destruct (_ =? 2) eqn:Hlen; [|discriminate].
    apply Nat.eqb_eq in Hlen.
    destruct (resolve w) as [[[]|x] w1] eqn:Hr; simpl; [|discriminate].
    intro H; inversion H; subst. now apply step_resolve.
  - destruct (flippedCards (stateOf w)) eqn:Hf; [|discriminate].
    destruct (currentPlayer (stateOf w)) eqn:Hp; [discriminate|].
    destruct (isGameActive (stateOf w)) eqn:Ha; [|discriminate].
    destruct (opponentReveal w) as [[[]|x] w1] eqn:Hr; simpl; [|discriminate].
    intro H; inversion H; subst. now apply step_opponent.
Qed.

Lemma execAll_reachable (actions : list Replay.Action) (w w' : World) :
  reachable w -> Replay.execAll actions w = Some w' -> reachable w'.
Proof.
  revert w. induction actions as [|a rest IH]; intros w Hw; simpl.
  - intro H; inversion H; subst; exact Hw.
  - destruct (Replay.exec a w) as [w1|] eqn:He; [|discriminate].
    apply IH. apply reach_step with w; [exact Hw | now apply exec_step with a].
Qed.

(** C3 fails on the code: in a beginner match the opponent, left with the
    cards 13 and 14 of which it remembers 13, reveals card 14 twice.  The
    revealed list then holds a duplicate, and the resolution that follows
    records (14, 14) as a matched pair and ends the match with card 13
    never matched. *)
Theorem C3_opponent_reveals_one_card_twice :
  reachable Replay.secondOpponentReveal /\
  flippedCards (stateOf Replay.secondOpponentReveal) = [Some 14; Some 14] /\
  step Replay.secondOpponentReveal Replay.lastResolution /\
  matchedPairs (stateOf Replay.lastResolution)
  = [(1, 2); (3, 4); (5, 6); (7, 8); (9, 10); (11, 12); (0, 15); (14, 14)] /\
  isGameActive (stateOf Replay.lastResolution) = false /\
  isCardMatched (stateOf Replay.lastResolution) 13 = false.
Proof.
  split.
  { apply execAll_reachable with Replay.lastTwoPairs (snd (start "beginner" Replay.samples)).
    - apply reach_start with "beginner" Replay.samples. reflexivity.
    - vm_compute. reflexivity. }
  split; [vm_compute; reflexivity|].
  split.
  { apply exec_step with Replay.Resolve. vm_compute. reflexivity. }
  repeat split; vm_compute; reflexivity.
Qed.

(** ** Random indices *)

Lemma sample_bounds (r : Unit01) : (0 <= sample r)%Q /\ (sample r < 1)%Q.
Proof.
  destruct r as [q Hq]. simpl. unfold in_unit, Qltb in Hq.
  apply andb_true_iff in Hq. destruct Hq as [H0 H1].
  split; [now apply Qle_bool_iff|].
  apply negb_true_iff in H1. apply Qnot_le_lt. intro H.
  apply Qle_bool_iff in H. congruence.
Qed.

Lemma random_index_in_range (r : Unit01) (n : nat) :
  0 < n -> Math_floor (sample r * ofNat n) < n.
Proof.
  intro Hn. destruct (sample_bounds r) as [H0 H1]. unfold Math_floor, ofNat.
  assert (Hpos : (0 < inject_Z (Z.of_nat n))%Q).
  { change 0%Q with (inject_Z 0). rewrite <- Zlt_Qlt. lia. }
  assert (Hlo : (0 <= Qfloor (sample r * inject_Z (Z.of_nat n)))%Z).
  { change 0%Z with (Qfloor 0). apply Qfloor_resp_le.
    apply Qmult_le_0_compat; [exact H0 | now apply Qlt_le_weak]. }
  assert (Hhi : (Qfloor (sample r * inject_Z (Z.of_nat n)) < Z.of_nat n)%Z).
  { rewrite Zlt_Qlt. eapply Qle_lt_trans; [apply Qfloor_le|].
    rewrite <- (Qmult_1_l (inject_Z (Z.of_nat n))) at 2.
    apply Qmult_lt_compat_r; assumption. }
  lia.
Qed.

(** ** The shuffle is a permutation *)

Lemma update_cons_perm {A} (l : list A) (j : nat) (a b : A) :
  nth_error l j = Some b -> Permutation (b :: update l j a) (a :: l).
Proof.
  revert j. induction l as [|y l IH]; intros [|j] H; simpl in *; try discriminate.
  - inversion H; subst. apply perm_swap.
  - eapply perm_trans; [apply perm_swap|].
    eapply perm_trans; [apply perm_skip, IH, H|]. apply perm_swap.
Qed.

Lemma swap_perm {A} (l : list A) (i j : nat) : Permutation (swap l i j) l.
Proof.
  unfold swap.
  destruct (nth_error l i) as [a|] eqn:Hi; [|apply Permutation_refl].
  destruct (nth_error l j) as [b|] eqn:Hj; [|apply Permutation_refl].
  revert i j Hi Hj. induction l as [|y l IH]; intros [|i] [|j] Hi Hj; simpl in *;
    try discriminate.
  - inversion Hi; inversion Hj; subst. apply Permutation_refl.
  - inversion Hi; subst. now apply update_cons_perm.
  - inversion Hj; subst. now apply update_cons_perm.
  - apply perm_skip. now apply IH.
Qed.

Lemma shuffleLoop_perm {A} (i : nat) (l : list A) (rs : Oracle) :
  exists l' rs', shuffleLoop i l rs = (Ok l', rs') /\ Permutation l' l.
Proof.
  revert l rs. induction i as [|i IH]; intros l rs; simpl.
  - exists l, rs. split; [reflexivity | apply Permutation_refl].
  - unfold bind, Math_random.
    destruct rs as [|r rs];
      match goal with
      | |- context [shuffleLoop i ?l1 ?rs1] =>
          destruct (IH l1 rs1) as (l' & rs' & Hrun & Hperm)
      end;
      exists l', rs'; (split; [exact Hrun|]);
      (eapply perm_trans; [exact Hperm | apply swap_perm]).
Qed.

Lemma shuffleArray_perm {A} (l : list A) (rs : Oracle) :
  exists l' rs', shuffleArray l rs = (Ok l', rs') /\ Permutation l' l.
Proof. apply shuffleLoop_perm. Qed.

(** Every swap of the shuffle stays inside the array. *)
Lemma shuffle_index_in_range (r : Unit01) (i : nat) :
  Math_floor (sample r * ofNat (i + 1)) <= i.
Proof. pose proof (random_index_in_range r (i + 1)). lia. Qed.

(** ** Pair identifiers of a board *)

Lemma positions_length (pid : nat) (board : list Card) :
  length (positionsOf pid board) = count_occ Nat.eq_dec (map pairId board) pid.
Proof.
  unfold positionsOf. induction board as [|c board IH]; [reflexivity|].
  simpl length.
  assert (Htail : length (filter (fun i => match nth_error (c :: board) i with
                                          | Some c0 => pairId c0 =? pid
                                          | None => false
                                          end) (seq 1 (length board)))
                  = count_occ Nat.eq_dec (map pairId board) pid).
  { rewrite <- IH, <- seq_shift, filter_map_swap, length_map. reflexivity. }
  simpl count_occ. destruct (Nat.eq_dec (pairId c) pid) as [He|He].
  - apply Nat.eqb_eq in He. rewrite He. simpl. now rewrite Htail.
  - apply Nat.eqb_neq in He. rewrite He. exact Htail.
Qed.

Lemma cardPairs_count_from (start len pid : nat) :
  count_occ Nat.eq_dec
    (map pairId (flat_map (fun i => [cardFor i; cardFor i]) (seq start len))) pid
  = if (start <=? pid) && (pid <? start + len) then 2 else 0.
Proof.
  revert start. induction len as [|len IH]; intro start; simpl.
  - destruct (start <=? pid) eqn:H1; simpl; [|reflexivity].
    destruct (pid <? start + 0) eqn:H2; [|reflexivity].
    apply Nat.leb_le in H1. apply Nat.ltb_lt in H2. lia.
  - rewrite IH. 
    destruct (Nat.eq_dec start pid) as [He|He].
    + subst. rewrite Nat.leb_refl.
      replace (S pid <=? pid) with false by (symmetry; apply Nat.leb_gt; lia).
      replace (pid <? pid + S len) with true by (symmetry; apply Nat.ltb_lt; lia).
      reflexivity.
    + destruct (start <=? pid) eqn:H1.
      * apply Nat.leb_le in H1.
        replace (S start <=? pid) with true by (symmetry; apply Nat.leb_le; lia).
        replace (start + S len) with (S start + len) by lia. reflexivity.
      * apply Nat.leb_gt in H1.
        replace (S start <=? pid) with false by (symmetry; apply Nat.leb_gt; lia).
        reflexivity.
Qed.

Lemma cardPairs_count (pairsNeeded : Q) (pid : nat) :
  In pid (map pairId (cardPairs pairsNeeded)) ->
  count_occ Nat.eq_dec (map pairId (cardPairs pairsNeeded)) pid = 2.
Proof.
  intro Hin. apply (count_occ_In Nat.eq_dec) in Hin.
  unfold cardPairs in *. rewrite cardPairs_count_from in *.
  destruct (_ && _); [reflexivity | lia].
Qed.

Lemma two_positions (pid : nat) (board : list Card) :
  length (positionsOf pid board) = 2 ->
  exists i j, i <> j /\
    forall k, (exists c, nth_error board k = Some c /\ pairId c = pid) <-> k = i \/ k = j.
Proof.
  intro Hlen.
  assert (Hnd : NoDup (positionsOf pid board)).
  { unfold positionsOf. apply NoDup_filter, seq_NoDup. }
  assert (Hin : forall k, In k (positionsOf pid board)
                          <-> exists c, nth_error board k = Some c /\ pairId c = pid).
  { intro k. unfold positionsOf. rewrite filter_In, in_seq. split.
    - intros [_ H]. destruct (nth_error board k) as [c|]; [|discriminate].
      exists c. split; [reflexivity | now apply Nat.eqb_eq].
    - intros [c [Hc Hp]]. split.
      + split; [lia|]. simpl. apply nth_error_Some. congruence.
      + rewrite Hc. now apply Nat.eqb_eq. }
  destruct (positionsOf pid board) as [|i [|j [|? ?]]]; try discriminate.
  exists i, j. split.
  - inversion Hnd as [|? ? Hni _]; subst. intro; subst. apply Hni. now left.
  - intro k. rewrite <- Hin. simpl. intuition congruence.
Qed.

(** C9: [generateCards] returns normally; the board it stores is a
    permutation of the sequence of pairs built before the shuffle, and every
    pair identifier on it sits on exactly two positions, which differ. *)
Theorem C9_board_is_a_permutation_of_the_pairs (w : World) :
  exists w' : World,
    generateCards w = (Ok tt, w') /\
    Permutation (cards (stateOf w'))
                (cardPairs (ofNat (rows (config (fst w)) * cols (config (fst w))) / 2)) /\
    forall pid, In pid (map pairId (cards (stateOf w'))) ->
      length (positionsOf pid (cards (stateOf w'))) = 2 /\
      exists i j, i <> j /\
        forall k, (exists c, nth_error (cards (stateOf w')) k = Some c /\ pairId c = pid)
                  <-> k = i \/ k = j.
Proof.
  unfold generateCards, stateOf. run. unfold MemoryGame.random, zoom.
  destruct (shuffleArray_perm
              (cardPairs (ofNat (rows (config (fst w)) * cols (config (fst w))) / 2)) (snd w))
    as (l' & rs' & Hrun & Hperm).
  rewrite Hrun. simpl. eexists. split; [reflexivity|]. simpl.
  split; [exact Hperm|].
  intros pid Hin.
  assert (Hlen : length (positionsOf pid l') = 2).
  { rewrite positions_length.
    rewrite (proj1 (Permutation_count_occ Nat.eq_dec _ _)
               (Permutation_map pairId Hperm) pid).
    apply cardPairs_count.
    eapply Permutation_in; [apply Permutation_map; exact Hperm | exact Hin]. }
  split; [exact Hlen | now apply two_positions].
Qed.


(** The pairs take their symbols in turn, so a board with an odd number of
    pairs per round of the alphabet does not hold every symbol equally often:
    the advanced board has 18 pairs, ten cards of each of the first two
    symbols and eight of each of the last two, where [rows * cols / 4] is 9. *)
Remark advanced_board_symbol_counts :
  map (fun s => length (filter (fun c => Symbol_eqb (symbol c) s)
                          (cardPairs (ofNat (rows advanced * cols advanced) / 2))))
      SYMBOLS
  = [10; 10; 8; 8] /\
  (ofNat (rows advanced * cols advanced) / ofNat (length SYMBOLS) == 9)%Q.
Proof. split; vm_compute; reflexivity. Qed.
(** ** Maps *)

Section JsMapFacts.
Context {K V : Type} (eqb : K -> K -> bool).
Hypothesis eqb_eq : forall x y, eqb x y = true <-> x = y.

Lemma eqb_refl_of (x : K) : eqb x x = true.
Proof. now apply eqb_eq. Qed.

Lemma get_set (m : list (K * V)) (k k' : K) (v : V) :
  JsMap.get eqb (JsMap.set eqb m k v) k'
  = if eqb k' k then Some v else JsMap.get eqb m k'.
Proof.
  induction m as [|[k0 v0] m IH]; simpl.
  - reflexivity.
  - destruct (eqb k k0) eqn:E; simpl.
    + apply eqb_eq in E. subst k0. destruct (eqb k' k); reflexivity.
    + rewrite IH. destruct (eqb k' k0) eqn:E0; [|reflexivity].
      destruct (eqb k' k) eqn:E1; [|reflexivity].
      apply eqb_eq in E0, E1. subst. rewrite eqb_refl_of in E. discriminate.
Qed.

Lemma has_In (m : list (K * V)) (k : K) :
  JsMap.has eqb m k = true <-> In k (JsMap.keys m).
Proof.
  unfold JsMap.has. induction m as [|[k0 v0] m IH]; simpl.
  - split; [discriminate | tauto].
  - destruct (eqb k k0) eqn:E.
    + apply eqb_eq in E. subst. split; auto.
    + rewrite IH. split; [auto|]. intros [H|H]; [|exact H].
      subst. rewrite eqb_refl_of in E. discriminate.
Qed.

Lemma keys_set (m : list (K * V)) (k : K) (v : V) :
  JsMap.keys (JsMap.set eqb m k v)
  = if JsMap.has eqb m k then JsMap.keys m else JsMap.keys m ++ [k].
Proof.
  unfold JsMap.has. induction m as [|[k0 v0] m IH]; simpl.
  - reflexivity.
  - destruct (eqb k k0) eqn:E; simpl; [reflexivity|].
    unfold JsMap.keys in *. rewrite IH.
    destruct (JsMap.get eqb m k); reflexivity.
Qed.

Lemma set_all (m : list (K * V)) (targets : list K) (v : V) (k : K) :
  JsMap.get eqb (fold_left (fun acc i => JsMap.set eqb acc i v) targets m) k
  = if existsb (eqb k) targets then Some v else JsMap.get eqb m k.
Proof.
  revert m. induction targets as [|t targets IH]; intro m; simpl; [reflexivity|].
  rewrite IH, get_set. destruct (eqb k t); simpl; [|reflexivity].
  now destruct (existsb (eqb k) targets).
Qed.

End JsMapFacts.

Lemma Symbol_eqb_eq (x y : Symbol) : Symbol_eqb x y = true <-> x = y.
Proof. destruct x, y; simpl; split; congruence. Qed.

(** ** Counting the symbols seen *)

Lemma symbolCounts_from (values : list Symbol) (counts : list (Symbol * nat)) (s : Symbol) :
  countOr0
    (fold_left
       (fun counts symbol =>
          JsMap.set Symbol_eqb counts symbol (countOr0 counts symbol + 1))
       values counts) s
  = countOr0 counts s + length (filter (fun v => Symbol_eqb v s) values).
Proof.
  revert counts. induction values as [|v values IH]; intro counts; simpl; [lia|].
  rewrite IH. unfold countOr0 at 1. rewrite (get_set Symbol_eqb Symbol_eqb_eq).
  destruct (Symbol_eqb s v) eqn:E.
  - apply Symbol_eqb_eq in E. subst v.
    rewrite (proj2 (Symbol_eqb_eq s s) eq_refl). simpl. lia.
  - assert (E' : Symbol_eqb v s = false).
    { destruct (Symbol_eqb v s) eqn:E'; [|reflexivity].
      apply Symbol_eqb_eq in E'. subst. rewrite (proj2 (Symbol_eqb_eq s s) eq_refl) in E.
      discriminate. }
    rewrite E'. fold (countOr0 counts s). lia.
Qed.

Lemma symbolCounts_occurrences (belief : list (nat * Symbol)) (s : Symbol) :
  countOr0 (MemoryAI.symbolCounts (JsMap.values belief)) s = occurrences s belief.
Proof.
  unfold MemoryAI.symbolCounts, occurrences, JsMap.values.
  pose proof (symbolCounts_from (map snd belief) [] s) as H. unfold countOr0 in H at 2.
  simpl in H. unfold countOr0 at 1 in H. unfold countOr0.
  etransitivity; [exact H|].
  now rewrite filter_map_swap, length_map.
Qed.

(** ** Counting the unknown positions *)

Lemma Nat_eqb_eq (x y : nat) : (x =? y) = true <-> x = y.
Proof. apply Nat.eqb_eq. Qed.

Lemma unknown_count (totalCards : nat) (belief : list (nat * Symbol)) :
  beliefOnBoard totalCards belief ->
  length (unknownPositions totalCards belief) + JsMap.size belief = totalCards.
Proof.
  intros [Hnd Hlt]. unfold unknownPositions, JsMap.size.
  pose proof (filter_length (JsMap.has Nat.eqb belief) (seq 0 totalCards)) as Hsplit.
  rewrite length_seq in Hsplit.
  assert (Hperm : Permutation (filter (JsMap.has Nat.eqb belief) (seq 0 totalCards))
                              (JsMap.keys belief)).
  { apply NoDup_Permutation; [apply NoDup_filter, seq_NoDup | exact Hnd |].
    intro k. rewrite filter_In, in_seq, (has_In Nat.eqb Nat_eqb_eq). split.
    - tauto.
    - intro H. split; [|exact H]. split; [lia|]. simpl. now apply Hlt. }
  apply Permutation_length in Hperm. unfold JsMap.keys in Hperm.
  rewrite length_map in Hperm. lia.
Qed.

Lemma probabilitiesFor_get (counts : list (Symbol * nat)) (symbolsPerType : Q)
    (unknown : Z) (s : Symbol) :
  JsMap.get Symbol_eqb (MemoryAI.probabilitiesFor counts symbolsPerType unknown) s
  = Some (Qmax 0 ((symbolsPerType - ofNat (countOr0 counts s)) / inject_Z unknown)).
Proof. destruct s; reflexivity. Qed.

Lemma updateProbabilities_estimates (c : DifficultyConfig) (revealed : Symbol)
    (a : MemoryAI.t) :
  MemoryAI.config a = Some c ->
  beliefOnBoard (rows c * cols c) (MemoryAI.memory a) ->
  exists a',
    MemoryAI.updateProbabilities revealed a = (Ok tt, a') /\
    MemoryAI.memory a' = MemoryAI.memory a /\
    a' = MemoryAI.with_probabilityMatrix (MemoryAI.probabilityMatrix a') a /\
    forall i s, i < rows c * cols c -> JsMap.has Nat.eqb (MemoryAI.memory a) i = false ->
      exists probabilities,
        JsMap.get Nat.eqb (MemoryAI.probabilityMatrix a') i = Some probabilities /\
        JsMap.get Symbol_eqb probabilities s
        = Some (expectedProbability c (MemoryAI.memory a) s).
Proof.
  intros Hc Hb. pose proof (unknown_count _ _ Hb) as Hcount.
  unfold MemoryAI.updateProbabilities, MemoryAI.readConfig. run. rewrite Hc. simpl.
  fold (unknownPositions (rows c * cols c) (MemoryAI.memory a)).
  destruct (unknownPositions (rows c * cols c) (MemoryAI.memory a)) as [|t targets] eqn:Hu.
  - exists a. split; [reflexivity|]. split; [reflexivity|]. split; [now destruct a|].
    intros i s Hi Hhas. exfalso.
    assert (Hin : In i (unknownPositions (rows c * cols c) (MemoryAI.memory a))).
    { unfold unknownPositions. rewrite filter_In, in_seq, Hhas. split; [lia | reflexivity]. }
    rewrite Hu in Hin. exact Hin.
  - assert (Hz : (Z.of_nat (rows c * cols c) - Z.of_nat (JsMap.size (MemoryAI.memory a)))%Z
                 = Z.of_nat (length (t :: targets))) by lia.
    rewrite Hz. destruct (Z.of_nat (length (t :: targets)) =? 0)%Z eqn:Hzero.
    { apply Z.eqb_eq in Hzero. simpl in Hzero. lia. }
    eexists. split; [reflexivity|]. split; [reflexivity|]. split; [reflexivity|].
    intros i s Hi Hhas. simpl MemoryAI.probabilityMatrix.
    eexists. split.
    + change (JsMap.set Nat.eqb (MemoryAI.probabilityMatrix a) t ?p)
        with (fold_left (fun acc i => JsMap.set Nat.eqb acc i p) [t] (MemoryAI.probabilityMatrix a)).
      rewrite <- fold_left_app. rewrite (set_all Nat.eqb Nat_eqb_eq).
      assert (Hin : In i (t :: targets)).
      { rewrite <- Hu. unfold unknownPositions.
        rewrite filter_In, in_seq, Hhas. split; [lia | reflexivity]. }
      replace (existsb (Nat.eqb i) ([t] ++ targets)) with true; [reflexivity|].
      symmetry. apply existsb_exists. exists i. split; [exact Hin | apply Nat.eqb_refl].
    + rewrite probabilitiesFor_get. unfold expectedProbability.
      rewrite symbolCounts_occurrences, Hu. reflexivity.
Qed.

Lemma beliefOnBoard_set (totalCards : nat) (belief : list (nat * Symbol))
    (index : nat) (symbol : Symbol) :
  index < totalCards -> beliefOnBoard totalCards belief ->
  beliefOnBoard totalCards (JsMap.set Nat.eqb belief index symbol).
Proof.
  intros Hi [Hnd Hlt]. unfold beliefOnBoard.
  rewrite (keys_set Nat.eqb).
  destruct (JsMap.has Nat.eqb belief index) eqn:Hhas; [now split|].
  split.
  - apply NoDup_app; [exact Hnd | repeat constructor; intros [] |].
    intros k Hk [Hk'|[]]. subst k.
    apply (has_In Nat.eqb Nat_eqb_eq) in Hk. congruence.
  - intros k Hk. apply in_app_or in Hk. destruct Hk as [Hk|[Hk|[]]]; [now apply Hlt | now subst].
Qed.

Lemma observeCard_estimates (c : DifficultyConfig) (a : MemoryAI.t)
    (rs : Oracle) (index : nat) (symbol : Symbol) (isPlayer : bool) :
  MemoryAI.config a = Some c ->
  beliefOnBoard (rows c * cols c) (MemoryAI.memory a) ->
  index < rows c * cols c ->
  exists (a' : MemoryAI.t) (rs' : Oracle),
    MemoryAI.observeCard index symbol isPlayer (a, rs) = (Ok tt, (a', rs')) /\
    beliefOnBoard (rows c * cols c) (MemoryAI.memory a') /\
    forall i s, i < rows c * cols c -> JsMap.has Nat.eqb (MemoryAI.memory a') i = false ->
      exists probabilities,
        JsMap.get Nat.eqb (MemoryAI.probabilityMatrix a') i = Some probabilities /\
        JsMap.get Symbol_eqb probabilities s
        = Some (expectedProbability c (MemoryAI.memory a') s).
Proof.
  intros Hc Hb Hi.
  assert (Hgo : forall a1 rs1, MemoryAI.config a1 = Some c ->
            beliefOnBoard (rows c * cols c) (MemoryAI.memory a1) ->
            exists a',
              (MemoryAI.onSelf (MemoryAI.updateProbabilities symbol) ;;
               when isPlayer (MemoryAI.update (MemoryAI.trackPlayerPattern index)) ;;
               MemoryAI.update (fun a => MemoryAI.with_moveCount (MemoryAI.moveCount a + 1) a))%js
                (a1, rs1) = (Ok tt, (a', rs1)) /\
              beliefOnBoard (rows c * cols c) (MemoryAI.memory a') /\
              forall i s, i < rows c * cols c ->
                JsMap.has Nat.eqb (MemoryAI.memory a') i = false ->
                exists probabilities,
                  JsMap.get Nat.eqb (MemoryAI.probabilityMatrix a') i = Some probabilities /\
                  JsMap.get Symbol_eqb probabilities s
                  = Some (expectedProbability c (MemoryAI.memory a') s)).
  { intros a1 rs1 Hc1 Hb1.
    destruct (updateProbabilities_estimates c symbol a1 Hc1 Hb1) as (a2 & Hrun & Hmem & _ & Hest).
    unfold bind at 1. unfold MemoryAI.onSelf, zoom. simpl fst. rewrite Hrun. simpl.
    destruct isPlayer; run; unfold MemoryAI.update; simpl;
      (eexists; split; [reflexivity|]; simpl; rewrite Hmem; split; [exact Hb1 | exact Hest]). }
  assert (Hdraw : exists r rs1, Math_random rs = (Ok r, rs1)).
  { destruct rs as [|r rs1]; eexists; eexists; reflexivity. }
  destruct Hdraw as (r & rs1 & Hdraw).
  unfold MemoryAI.observeCard.
  remember (MemoryAI.onSelf (MemoryAI.updateProbabilities symbol) ;;
            when isPlayer (MemoryAI.update (MemoryAI.trackPlayerPattern index)) ;;
            MemoryAI.update (fun a => MemoryAI.with_moveCount (MemoryAI.moveCount a + 1) a))%js
    as rest eqn:Hrest.
  unfold bind at 1. unfold MemoryAI.random, zoom. simpl snd. rewrite Hdraw.
  unfold bind at 1. unfold MemoryAI.self. simpl fst.
  unfold bind at 1.
  destruct (Qltb (sample r) (MemoryAI.memoryAccuracy a)); simpl.
  - match goal with
    | |- context [rest (?a1, ?rs2)] =>
        destruct (Hgo a1 rs2) as (a' & Hrun & Hb' & Hest);
          [exact Hc | now apply beliefOnBoard_set |]
    end.
    exists a', rs1. split; [exact Hrun|]. split; assumption.
  - destruct (Hgo a rs1 Hc Hb) as (a' & Hrun & Hb' & Hest).
    exists a', rs1. split; [exact Hrun|]. split; assumption.
Qed.





(** ** What [makeMove] returns *)

Lemma insertBy_In {A} (before : A -> A -> bool) (x y : A) (l : list A) :
  In y (insertBy before x l) <-> y = x \/ In y l.
Proof.
  induction l as [|z l IH]; simpl.
  - intuition.
  - destruct (before z x); simpl; rewrite ?IH; intuition.
Qed.

Lemma sortBy_In {A} (before : A -> A -> bool) (y : A) (l : list A) :
  In y (sortBy before l) <-> In y l.
Proof.
  unfold sortBy.
  assert (H : forall acc, In y (fold_left (fun acc x => insertBy before x acc) l acc)
                          <-> In y acc \/ In y l).
  { induction l as [|x l IH]; intro acc; simpl; [tauto|].
    rewrite IH, insertBy_In. intuition. }
  rewrite H. simpl. tauto.
Qed.

Lemma randomChoice_nonempty {A} (l : list A) (rs : Oracle) :
  l <> [] ->
  exists x rs', randomChoice l rs = (Ok (Some x), rs') /\ In x l.
Proof.
  intro Hne. unfold randomChoice, bind, ret, Math_random.
  assert (Hlen : 0 < length l) by (destruct l; [congruence | simpl; lia]).
  destruct rs as [|r rs].
  - pose proof (random_index_in_range zero01 (length l) Hlen) as Hi.
    destruct (nth_error l (Math_floor (sample zero01 * ofNat (length l)))) as [x|] eqn:Hx;
      [|apply nth_error_None in Hx; lia].
    exists x, []. split; [reflexivity | now apply nth_error_In in Hx].
  - pose proof (random_index_in_range r (length l) Hlen) as Hi.
    destruct (nth_error l (Math_floor (sample r * ofNat (length l)))) as [x|] eqn:Hx;
      [|apply nth_error_None in Hx; lia].
    exists x, rs. split; [reflexivity | now apply nth_error_In in Hx].
Qed.

Lemma randomChoice_member {A} (l : list A) (rs rs' : Oracle) (x : A) :
  randomChoice l rs = (Ok (Some x), rs') -> In x l.
Proof.
  unfold randomChoice, bind, ret, Math_random.
  destruct rs as [|r rs];
    match goal with
    | |- (_, nth_error l ?n, _) = _ -> _ => generalize n
    | |- (Ok (nth_error l ?n), _) = _ -> _ => generalize n
    end; intros n H; injection H as Hx _; now apply nth_error_In in Hx.
Qed.

Lemma find_In {A} (f : A -> bool) (l : list A) (x : A) :
  find f l = Some x -> In x l /\ f x = true.
Proof. apply find_some. Qed.

Lemma findKnownPairsFrom_sound (a : MemoryAI.t) (l : list nat) (x y : nat) :
  NoDup l -> MemoryAI.findKnownPairsFrom a l = Some (x, y) ->
  In x l /\ In y l /\ x <> y.
Proof.
  induction l as [|card1 rest IH]; intros Hnd; simpl; [discriminate|].
  inversion Hnd as [|? ? Hnotin Hnd']; subst.
  destruct (find _ rest) as [card2|] eqn:Hfind.
  - intro H; inversion H; subst. apply find_some in Hfind. destruct Hfind as [Hin _].
    split; [now left|]. split; [now right|]. intro; subst. contradiction.
  - intro H. destruct (IH Hnd' H) as (Hx & Hy & Hne). auto.
Qed.

Lemma findKnownPairs_sound (a : MemoryAI.t) (availableCards : list nat) (x y : nat) :
  NoDup availableCards -> MemoryAI.findKnownPairs a availableCards = Some (x, y) ->
  In x availableCards /\ In y availableCards /\ x <> y.
Proof.
  intros Hnd H. unfold MemoryAI.findKnownPairs in H.
  apply findKnownPairsFrom_sound in H; [|now apply NoDup_filter].
  destruct H as (Hx & Hy & Hne). apply filter_In in Hx, Hy. tauto.
Qed.

Lemma candidatesFor_In (a : MemoryAI.t) (availableCards : list nat) (s : Symbol)
    (card : nat * Q) :
  In card (MemoryAI.candidatesFor a availableCards s) ->
  In (fst card) availableCards /\ JsMap.has Nat.eqb (MemoryAI.memory a) (fst card) = false.
Proof.
  unfold MemoryAI.candidatesFor. rewrite sortBy_In, filter_In, in_map_iff.
  intros [[index [E Hin]] _]. subst card. simpl. apply filter_In in Hin.
  destruct Hin as [Hin Hhas]. split; [exact Hin|]. now apply negb_true_iff.
Qed.

Lemma probabilityBasedMoveFrom_sound (a : MemoryAI.t) (availableCards : list nat)
    (entries : list (nat * Symbol)) (x y : nat) :
  (forall k s, In (k, s) entries -> JsMap.has Nat.eqb (MemoryAI.memory a) k = true) ->
  MemoryAI.probabilityBasedMoveFrom a availableCards entries = Some (x, y) ->
  In x availableCards /\ In y availableCards /\ x <> y.
Proof.
  induction entries as [|[knownIndex knownSymbol] rest IH]; intros Hknown; simpl;
    [discriminate|].
  assert (Hrest : forall k s, In (k, s) rest -> JsMap.has Nat.eqb (MemoryAI.memory a) k = true).
  { intros k s Hin. apply (Hknown k s). now right. }
  destruct (includes availableCards knownIndex) eqn:Hinc; simpl; [|now apply IH].
  destruct (MemoryAI.candidatesFor a availableCards knownSymbol) as [|best more] eqn:Hc;
    [now apply IH|].
  intro H; inversion H; subst.
  assert (Hbest : In best (MemoryAI.candidatesFor a availableCards knownSymbol)).
  { rewrite Hc. now left. }
  apply candidatesFor_In in Hbest. destruct Hbest as [Hin Hun].
  unfold includes in Hinc. apply existsb_exists in Hinc. destruct Hinc as [k [Hk E]].
  apply Nat.eqb_eq in E. subst k.
  split; [exact Hk|]. split; [exact Hin|].
  intro E. rewrite <- E in Hun. rewrite (Hknown x knownSymbol) in Hun; [discriminate | now left].
Qed.

Lemma probabilityBasedMove_sound (a : MemoryAI.t) (availableCards : list nat) (x y : nat) :
  MemoryAI.probabilityBasedMove a availableCards = Some (x, y) ->
  In x availableCards /\ In y availableCards /\ x <> y.
Proof.
  apply probabilityBasedMoveFrom_sound. intros k s Hin.
  apply (has_In Nat.eqb Nat_eqb_eq). unfold JsMap.keys.
  apply in_map_iff. now exists (k, s).
Qed.

Lemma filter_other_nonempty (l : list nat) (f : nat) :
  NoDup l -> 2 <= length l -> filter (fun index => negb (index =? f)) l <> [].
Proof.
  intros Hnd Hlen. destruct l as [|x [|y l]]; simpl in Hlen; try lia.
  inversion Hnd as [|? ? Hx _]; subst.
  assert (Hxy : x <> y) by (intro; subst; apply Hx; now left).
  simpl. destruct (x =? f) eqn:Ex; simpl; [|discriminate].
  apply Nat.eqb_eq in Ex. subst f.
  destruct (y =? x) eqn:Ey; simpl; [|discriminate].
  apply Nat.eqb_eq in Ey. congruence.
Qed.

Lemma withoutFirst_nonempty (l : list nat) :
  NoDup l -> 2 <= length l -> MemoryAI.withoutFirst l <> [].
Proof.
  intros Hnd Hlen. unfold MemoryAI.withoutFirst.
  destruct l as [|first rest] eqn:E; [simpl in Hlen; lia|].
  now apply filter_other_nonempty.
Qed.

Lemma withoutFirst_incl (l : list nat) (x : nat) : In x (MemoryAI.withoutFirst l) -> In x l.
Proof.
  unfold MemoryAI.withoutFirst. destruct l as [|first rest]; [tauto|].
  intro H. now apply filter_In in H.
Qed.

Lemma random_choice (a : MemoryAI.t) (l : list nat) (rs : Oracle) :
  l <> [] ->
  exists x rs',
    MemoryAI.random (randomChoice l) (a, rs) = (Ok (Some x), (a, rs')) /\ In x l.
Proof.
  intro Hne. destruct (randomChoice_nonempty l rs Hne) as (x & rs' & Hrun & Hin).
  exists x, rs'. unfold MemoryAI.random, zoom. simpl. now rewrite Hrun.
Qed.

Lemma random_draw (a : MemoryAI.t) (rs : Oracle) :
  exists r rs', MemoryAI.random Math_random (a, rs) = (Ok r, (a, rs')).
Proof.
  unfold MemoryAI.random, zoom, Math_random. destruct rs as [|r rs]; simpl; eauto.
Qed.

(** Two cards drawn the way the fallback and the blocking branch draw them. *)
Lemma two_choices (a : MemoryAI.t) (l : list nat) (rs : Oracle) :
  NoDup l -> 2 <= length l ->
  exists x y rs',
    (first <- MemoryAI.random (randomChoice l) ;;
     second <- MemoryAI.random (randomChoice (MemoryAI.withoutFirst l)) ;;
     ret (first, second))%js (a, rs) = (Ok (Some x, Some y), (a, rs')) /\
    In x l /\ In y l.
Proof.
  intros Hnd Hlen.
  destruct (random_choice a l rs) as (x & rs1 & H1 & Hx).
  { destruct l; [simpl in Hlen; lia | discriminate]. }
  destruct (random_choice a (MemoryAI.withoutFirst l) rs1) as (y & rs2 & H2 & Hy).
  { now apply withoutFirst_nonempty. }
  exists x, y, rs2. unfold bind. rewrite H1, H2. split; [reflexivity|].
  split; [exact Hx | now apply withoutFirst_incl].
Qed.

Lemma analyzePlayerPatterns_total (a : MemoryAI.t) (c : DifficultyConfig)
    (e : MemoryAI.Env) :
  MemoryAI.config a = Some c -> 0 < cols c ->
  exists analysis, MemoryAI.analyzePlayerPatterns a e = (Ok analysis, e).
Proof.
  intros Hc Hcols. unfold MemoryAI.analyzePlayerPatterns, MemoryAI.readConfig.
  destruct (_ <? 3); [eexists; reflexivity|].
  rewrite Hc. unfold bind, ret. simpl.
  destruct (cols c =? 0) eqn:E; [apply Nat.eqb_eq in E; lia|].
  eexists; reflexivity.
Qed.

Lemma blockingMove_total (a : MemoryAI.t) (c : DifficultyConfig)
    (unknownCards : list nat) (rs : Oracle) :
  MemoryAI.config a = Some c -> 0 < cols c -> NoDup unknownCards ->
  exists blocked rs',
    MemoryAI.blockingMove a unknownCards (a, rs) = (Ok blocked, (a, rs')) /\
    (blocked = None \/
     exists x y, blocked = Some (Some x, Some y) /\ In x unknownCards /\ In y unknownCards).
Proof.
  intros Hc Hcols Hnd. unfold MemoryAI.blockingMove.
  destruct (analyzePlayerPatterns_total a c (a, rs) Hc Hcols) as (analysis & Ha).
  unfold bind at 1. rewrite Ha.
  destruct (Qltb _ _); [|exists None, rs; split; [reflexivity | now left]].
  destruct (random_draw a rs) as (r & rs1 & Hr).
  unfold bind at 1. rewrite Hr.
  destruct (Qltb _ _); [|exists None, rs1; split; [reflexivity | now left]].
  unfold bind at 1. unfold MemoryAI.readConfig. rewrite Hc. unfold ret at 1.
  match goal with
  | |- context [2 <=? length ?l] => set (blockedCards := l)
  end.
  destruct (2 <=? length blockedCards) eqn:Hlen;
    [|exists None, rs1; split; [reflexivity | now left]].
  apply Nat.leb_le in Hlen.
  assert (Hndb : NoDup blockedCards) by (now apply NoDup_filter).
  destruct (random_choice a blockedCards rs1) as (x & rs2 & H1 & Hx).
  { destruct blockedCards; [simpl in Hlen; lia | discriminate]. }
  destruct (random_choice a (MemoryAI.withoutFirst blockedCards) rs2) as (y & rs3 & H2 & Hy).
  { now apply withoutFirst_nonempty. }
  exists (Some (Some x, Some y)), rs3. unfold bind. rewrite H1, H2.
  split; [reflexivity|]. right. exists x, y. split; [reflexivity|].
  apply withoutFirst_incl in Hy. unfold blockedCards in Hx, Hy.
  apply filter_In in Hx, Hy. tauto.
Qed.

Lemma explorationMove_total (a : MemoryAI.t) (c : DifficultyConfig)
    (availableCards : list nat) (rs : Oracle) :
  MemoryAI.config a = Some c -> 0 < cols c ->
  NoDup availableCards -> 2 <= length availableCards ->
  exists x y rs',
    MemoryAI.explorationMove availableCards (a, rs) = (Ok (Some x, Some y), (a, rs')) /\
    In x availableCards /\ In y availableCards.
Proof.
  intros Hc Hcols Hnd Hlen. unfold MemoryAI.explorationMove.
  unfold bind at 1. unfold MemoryAI.self. cbn beta iota delta [fst].
  set (unknownCards := filter _ availableCards).
  assert (Hndu : NoDup unknownCards) by (now apply NoDup_filter).
  assert (Hsub : forall x, In x unknownCards -> In x availableCards).
  { intros x Hx. unfold unknownCards in Hx. now apply filter_In in Hx. }
  destruct (length unknownCards <? 2) eqn:Hfew.
  - now apply two_choices.
  - apply Nat.ltb_ge in Hfew.
    destruct (blockingMove_total a c unknownCards rs Hc Hcols Hndu)
      as (blocked & rs1 & Hb & [E | (x & y & E & Hx & Hy)]); subst blocked.
    + unfold bind at 1. rewrite Hb.
      destruct (random_choice a unknownCards rs1) as (x & rs2 & H1 & Hx).
      { destruct unknownCards; [simpl in Hfew; lia | discriminate]. }
      unfold bind at 1. rewrite H1.
      destruct (random_choice a (filter (fun index => negb (index =? x)) unknownCards) rs2)
        as (y & rs3 & H2 & Hy).
      { now apply filter_other_nonempty. }
      unfold bind at 1. rewrite H2.
      exists x, y, rs3. split; [reflexivity|]. apply filter_In in Hy. split; apply Hsub; tauto.
    + unfold bind at 1. rewrite Hb. exists x, y, rs1. split; [reflexivity|]. auto.
Qed.

(** [makeMove] answers with two cards out of [availableCards]. *)
Lemma makeMove_total (a : MemoryAI.t) (c : DifficultyConfig)
    (availableCards : list nat) (rs : Oracle) :
  MemoryAI.config a = Some c -> 0 < cols c ->
  NoDup availableCards -> 2 <= length availableCards ->
  exists x y rs',
    MemoryAI.makeMove availableCards (a, rs) = (Ok (Some x, Some y), (a, rs')) /\
    In x availableCards /\ In y availableCards.
Proof.
  intros Hc Hcols Hnd Hlen.
  unfold MemoryAI.makeMove, MemoryAI.calculateThinkingTime, MemoryAI.readConfig.
  unfold bind at 1. unfold MemoryAI.self. cbn beta iota delta [fst]. rewrite Hc.
  unfold bind at 1. unfold bind at 1. unfold ret at 1. unfold ret at 1.
  destruct (MemoryAI.findKnownPairs a availableCards) as [[x y]|] eqn:Hk.
  { destruct (findKnownPairs_sound a availableCards x y Hnd Hk) as (Hx & Hy & _).
    exists x, y, rs. now split. }
  destruct (MemoryAI.probabilityBasedMove a availableCards) as [[x y]|] eqn:Hp.
  { destruct (probabilityBasedMove_sound a availableCards x y Hp) as (Hx & Hy & _).
    exists x, y, rs. now split. }
  now apply explorationMove_total with c.
Qed.
(** ** The segments of a match *)

#[export] Instance Frame_keepsBelief (totalCards : nat) : Frame (keepsBelief totalCards).
Proof. split; unfold keepsBelief; auto. Qed.

Lemma observeCard_belief (totalCards index : nat) (s : Symbol) (isPlayer : bool) :
  index < totalCards ->
  preserves (fun e e' : MemoryAI.Env => keepsBelief totalCards (fst e) (fst e'))
            (MemoryAI.observeCard index s isPlayer).
Proof.
  intro Hi. unfold MemoryAI.observeCard, MemoryAI.updateProbabilities.
  repeat frame_step; unfold keepsBelief; simpl; try tauto.
  now apply beliefOnBoard_set.
Qed.

Lemma onAI_observeCard (index : nat) (s : Symbol) (isPlayer : bool) (w w' : World)
    (r : Result unit) :
  onAI (MemoryAI.observeCard index s isPlayer) w = (r, w') ->
  gameState (fst w') = gameState (fst w) /\ ui (fst w') = ui (fst w) /\
  config (fst w') = config (fst w) /\ totalPairs (fst w') = totalPairs (fst w) /\
  MemoryAI.config (ai (fst w')) = MemoryAI.config (ai (fst w)) /\
  forall totalCards, index < totalCards ->
    beliefOnBoard totalCards (MemoryAI.memory (ai (fst w))) ->
    beliefOnBoard totalCards (MemoryAI.memory (ai (fst w'))).
Proof.
  intro H. destruct (onAI_frame _ _ _ _ H) as (H1 & H2 & H3 & H4).
  repeat (split; [assumption|]).
  unfold onAI, zoom in H.
  pose proof (observeCard_sameProfile index s isPlayer (ai (fst w), snd w)) as Hp.
  pose proof (fun n Hn => observeCard_belief n index s isPlayer Hn (ai (fst w), snd w)) as Hb.
  destruct (MemoryAI.observeCard index s isPlayer (ai (fst w), snd w)) as [r0 e].
  inversion H; subst. simpl in *. split; [apply Hp | exact Hb].
Qed.

Lemma onAI_observeCard_total (index : nat) (s : Symbol) (isPlayer : bool) (w : World)
    (c : DifficultyConfig) :
  MemoryAI.config (ai (fst w)) = Some c ->
  beliefOnBoard (rows c * cols c) (MemoryAI.memory (ai (fst w))) ->
  index < rows c * cols c ->
  exists w', onAI (MemoryAI.observeCard index s isPlayer) w = (Ok tt, w').
Proof.
  intros Hc Hb Hi.
  destruct (observeCard_estimates c (ai (fst w)) (snd w) index s isPlayer Hc Hb Hi)
    as (a' & rs' & Hrun & _).
  unfold onAI, zoom. rewrite Hrun. eexists. reflexivity.
Qed.

Lemma reveal_effect (cardIndex : nat) (w w' : World) :
  reveal cardIndex w = (Ok tt, w') ->
  w' = w \/
  (isValidCardClick (stateOf w) cardIndex = true /\
   cardIndex < length (cards (stateOf w)) /\
   stateOf w' = with_flippedCards (flippedCards (stateOf w) ++ [Some cardIndex]) (stateOf w) /\
   config (fst w') = config (fst w) /\
   totalPairs (fst w') = totalPairs (fst w) /\
   MemoryAI.config (ai (fst w')) = MemoryAI.config (ai (fst w)) /\
   ui (fst w') = GameUI.flipCard (Some cardIndex) (ui (fst w)) /\
   forall totalCards, cardIndex < totalCards ->
     beliefOnBoard totalCards (MemoryAI.memory (ai (fst w))) ->
     beliefOnBoard totalCards (MemoryAI.memory (ai (fst w')))).
Proof.
  unfold reveal, handleCardClick, makePlayerMove, stateOf. run.
  destruct (isValidCardClick (gameState (fst w)) cardIndex) eqn:Hv; simpl.
  2:{ intro H; inversion H. now left. }
  assert (Ha : isGameActive (gameState (fst w)) = true).
  { unfold isValidCardClick in Hv.
    destruct (negb (Player.eqb _ _)); [discriminate|].
    destruct (isGameActive (gameState (fst w))); [reflexivity | discriminate]. }
  rewrite Ha. simpl.
  destruct (nth_error (cards (gameState (fst w))) cardIndex) as [card|] eqn:Hcard;
    [|discriminate].
  match goal with
  | |- context [onAI ?m ?w1] => destruct (onAI m w1) as [[[]|x] w2] eqn:Hobs
  end; [|discriminate].
  destruct (onAI_observeCard _ _ _ _ _ _ Hobs) as (H1 & H2 & H3 & H4 & H5 & H6). simpl in *.
  intro H. right. split; [reflexivity|]. split; [apply nth_error_Some; congruence|].
  assert (w' = w2).
  { destruct (length (flippedCards (gameState (fst w2))) =? 2); simpl in H; now inversion H. }
  subst w'. rewrite H1. repeat (split; [first [assumption | reflexivity]|]). exact H6.
Qed.

Lemma opponentReveal_effect (w w' : World) :
  opponentReveal w = (Ok tt, w') ->
  (negb (Player.eqb (currentPlayer (stateOf w)) Player.ai)
   || (length (getAvailableCards (stateOf w)) <? 2) = true /\ w' = w) \/
  exists first second,
    negb (Player.eqb (currentPlayer (stateOf w)) Player.ai)
    || (length (getAvailableCards (stateOf w)) <? 2) = false /\
    first < length (cards (stateOf w)) /\ second < length (cards (stateOf w)) /\
    stateOf w'
    = with_flippedCards (flippedCards (stateOf w) ++ [Some first; Some second]) (stateOf w) /\
    config (fst w') = config (fst w) /\
    totalPairs (fst w') = totalPairs (fst w) /\
    MemoryAI.config (ai (fst w')) = MemoryAI.config (ai (fst w)) /\
    ui (fst w')
    = GameUI.flipCard (Some second) (GameUI.flipCard (Some first) (ui (fst w))) /\
    forall totalCards, first < totalCards -> second < totalCards ->
      beliefOnBoard totalCards (MemoryAI.memory (ai (fst w))) ->
      beliefOnBoard totalCards (MemoryAI.memory (ai (fst w'))).
Proof.
  unfold opponentReveal, makeAIMove, stateOf. run.
  destruct (negb (Player.eqb _ _)); simpl.
  { intro H; inversion H. left. now split. }
  destruct (_ <? 2); simpl.
  { intro H; inversion H. left. now split. }
  match goal with
  | |- context [onAI ?m ?w1] => destruct (onAI m w1) as [[[firstCard secondCard]|x] w1'] eqn:Hmove
  end; [|discriminate].
  assert (Hm : gameState (fst w1') = gameState (fst w) /\ ui (fst w1') = ui (fst w) /\
               config (fst w1') = config (fst w) /\ totalPairs (fst w1') = totalPairs (fst w) /\
               ai (fst w1') = ai (fst w)).
  { destruct (onAI_frame _ _ _ _ Hmove) as (H1 & H2 & H3 & H4).
    repeat split; try assumption.
    unfold onAI, zoom in Hmove.
    pose proof (makeMove_readonly (getAvailableCards (gameState (fst w))) (ai (fst w), snd w)) as Hro.
    destruct (MemoryAI.makeMove _ _) as [r0 e]. inversion Hmove; subst. simpl in *. congruence. }
  destruct Hm as (Hg & Hu & Hcfg & Htp & Hai). simpl.
  destruct firstCard as [first|]; [|discriminate]. simpl.
  destruct (nth_error (cards (gameState (fst w1'))) first) as [card1|] eqn:Hc1; [|discriminate].
  match goal with
  | |- context [onAI ?m ?w1] => destruct (onAI m w1) as [[[]|x] w2] eqn:Hobs1
  end; [|discriminate].
  destruct (onAI_observeCard _ _ _ _ _ _ Hobs1) as (G1 & G2 & G3 & G4 & G5 & G6). simpl in *.
  destruct secondCard as [second|]; [|discriminate].
  destruct (nth_error (cards (gameState (fst w1'))) second) as [card2|] eqn:Hc2; [|discriminate].
  match goal with
  | |- context [onAI ?m ?w1] => destruct (onAI m w1) as [[[]|x] w3] eqn:Hobs2
  end; [|discriminate].
  destruct (onAI_observeCard _ _ _ _ _ _ Hobs2) as (K1 & K2 & K3 & K4 & K5 & K6).
  intro H; inversion H; subst w3. right. exists first, second.
  rewrite Hg in *.
  split; [reflexivity|].
  split; [apply nth_error_Some; congruence|].
  split; [apply nth_error_Some; congruence|].
  rewrite K1, G1. simpl. rewrite <- app_assoc. simpl.
  repeat (split; [first [congruence|reflexivity]|]).
  intros n L1 L2 Hb. apply K6; [exact L2|]. apply G6; [exact L1|]. now rewrite Hai.
Qed.

Lemma flipCard_sound (x : option nat) (u : GameUI.t) :
  uiSound u -> uiSound (GameUI.flipCard x u).
Proof.
  unfold uiSound, GameUI.flipCard, GameUI.hasElement. intro H.
  destruct x as [i|]; [|exact H].
  destruct (i <? GameUI.cardElements u) eqn:Hi; [|exact H].
  simpl. unfold GameUI.addClass. destruct (includes _ _); [exact H|].
  intros k Hk. apply in_app_or in Hk. destruct Hk as [Hk|[Hk|[]]]; [now apply H|].
  subst. now apply Nat.ltb_lt.
Qed.

Lemma flipCardBack_sound (x : option nat) (u : GameUI.t) :
  uiSound u -> uiSound (GameUI.flipCardBack x u).
Proof.
  unfold uiSound, GameUI.flipCardBack, GameUI.hasElement. intro H.
  destruct x as [i|]; [|exact H].
  destruct (i <? GameUI.cardElements u) eqn:Hi; [|exact H].
  simpl. unfold GameUI.removeClass. intros k Hk. apply filter_In in Hk. now apply H.
Qed.

Lemma flipCardBack_hides (i : nat) (u : GameUI.t) :
  uiSound u -> ~ In i (GameUI.flipped (GameUI.flipCardBack (Some i) u)).
Proof.
  unfold uiSound, GameUI.flipCardBack, GameUI.hasElement. intro H.
  destruct (i <? GameUI.cardElements u) eqn:Hi; simpl.
  - unfold GameUI.removeClass. intro Hin. apply filter_In in Hin.
    destruct Hin as [_ Hne]. now rewrite Nat.eqb_refl in Hne.
  - intro Hin. apply H in Hin. apply Nat.ltb_ge in Hi. lia.
Qed.

Lemma flipCardBack_keeps_hidden (i : nat) (x : option nat) (u : GameUI.t) :
  ~ In i (GameUI.flipped u) -> ~ In i (GameUI.flipped (GameUI.flipCardBack x u)).
Proof.
  unfold GameUI.flipCardBack. destruct (GameUI.hasElement u x); [|tauto].
  simpl. unfold GameUI.removeClass. intros H Hin. apply filter_In in Hin. tauto.
Qed.

#[export] Instance Frame_sameMemory : Frame sameMemory.
Proof. split; unfold sameMemory; [reflexivity | intros; congruence]. Qed.

Lemma recordMoveResult_sameMemory (cards : nat * nat) (wasMatch : bool)
    (symbols : Symbol * Symbol) :
  preserves sameMemory (MemoryAI.recordMoveResult cards wasMatch symbols).
Proof.
  unfold MemoryAI.recordMoveResult, MemoryAI.learnFromMove.
  repeat frame_step; reflexivity.
Qed.

Lemma recordMoveResult_ok (cards : nat * nat) (wasMatch : bool)
    (symbols : Symbol * Symbol) (a : MemoryAI.t) (c : DifficultyConfig) :
  MemoryAI.config a = Some c ->
  exists a', MemoryAI.recordMoveResult cards wasMatch symbols a = (Ok tt, a') /\
             MemoryAI.config a' = MemoryAI.config a /\
             MemoryAI.memory a' = MemoryAI.memory a.
Proof.
  intro Hc. pose proof (recordMoveResult_sameMemory cards wasMatch symbols a) as Hm.
  destruct wasMatch.
  - destruct (recordMoveResult_match_accuracy cards symbols a) as (a' & H1 & H2 & _).
    rewrite H1 in Hm. now exists a'.
  - destruct (recordMoveResult_miss_accuracy cards symbols a c Hc) as (a' & H1 & H2 & _).
    rewrite H1 in Hm. now exists a'.
Qed.

Opaque MemoryAI.recordMoveResult.

Lemma resolve_effect (w : World) (i1 i2 : nat) (c1 c2 : Card) (c : DifficultyConfig) :
  flippedCards (stateOf w) = [Some i1; Some i2] ->
  nth_error (cards (stateOf w)) i1 = Some c1 ->
  nth_error (cards (stateOf w)) i2 = Some c2 ->
  MemoryAI.config (ai (fst w)) = Some c ->
  uiSound (ui (fst w)) ->
  exists w' : World,
    resolve w = (Ok tt, w') /\
    let s := stateOf w in
    let s' := stateOf w' in
    let isMatch := pairId c1 =? pairId c2 in
    let matched := if isMatch then matchedPairs s ++ [(i1, i2)] else matchedPairs s in
    let complete := Qeq_bool (ofNat (length matched)) (totalPairs (fst w)) in
    flippedCards s' = [] /\
    matchedPairs s' = matched /\
    cards s' = cards s /\
    difficulty s' = difficulty s /\
    moves s' = moves s + 1 /\
    isGameActive s' = (if complete then false else isGameActive s) /\
    currentPlayer s' = (if isMatch || complete then currentPlayer s else other (currentPlayer s)) /\
    config (fst w') = config (fst w) /\
    totalPairs (fst w') = totalPairs (fst w) /\
    MemoryAI.config (ai (fst w')) = MemoryAI.config (ai (fst w)) /\
    MemoryAI.memory (ai (fst w')) = MemoryAI.memory (ai (fst w)) /\
    uiSound (ui (fst w')) /\
    (isMatch = false ->
       ~ In i1 (GameUI.flipped (ui (fst w'))) /\ ~ In i2 (GameUI.flipped (ui (fst w')))) /\
    (complete = true ->
       exists result, GameUI.gameOver (ui (fst w')) = Some result /\
                      GameUI.winner result = winnerOf s').
Proof.
  intros Hf H1 H2 Hc Hu. destruct w as [g rs]. unfold stateOf in *. simpl in *.
  unfold resolve, evaluateMove, settleMove, handleMatch, handleMismatch. run.
  rewrite Hf. simpl. rewrite H1, H2. simpl.
  unfold onAI, MemoryAI.onSelf, zoom. simpl.
  destruct (recordMoveResult_ok (i1, i2) (pairId c1 =? pairId c2) (symbol c1, symbol c2)
              (ai g) c Hc) as (a' & Hr & Hcfg & Hmem).
  destruct (pairId c1 =? pairId c2) eqn:Hm; simpl.
  - destruct (currentPlayer (gameState g)) eqn:Hp; simpl; rewrite Hr; simpl;
      unfold isGameComplete; simpl;
      destruct (Qeq_bool _ _) eqn:Hcomplete; simpl; rewrite ?Hp; simpl;
      (eexists; split; [reflexivity|]); simpl;
      repeat split; try reflexivity; try discriminate; try exact Hp; try exact Hcfg;
      try exact Hmem;
      try (repeat apply flipCard_sound; exact Hu);
      try (eexists; split; reflexivity).
  - rewrite Hr. simpl. unfold isGameComplete. simpl.
    destruct (currentPlayer (gameState g)) eqn:Hp;
    destruct (Qeq_bool _ _) eqn:Hcomplete; simpl; rewrite ?Hp; simpl;
      (eexists; split; [reflexivity|]); simpl;
      repeat split; try reflexivity; try discriminate; try exact Hp; try exact Hcfg;
      try exact Hmem;
      try (repeat apply flipCardBack_sound; exact Hu);
      try (apply flipCardBack_keeps_hidden, flipCardBack_hides; exact Hu);
      try (apply flipCardBack_hides, flipCardBack_sound; exact Hu);
      try (eexists; split; reflexivity).
Qed.

Transparent MemoryAI.recordMoveResult.

Lemma setupNewGame_effect (w : World) :
  exists w' : World,
    setupNewGame w = (Ok tt, w') /\
    flippedCards (stateOf w') = [] /\
    matchedPairs (stateOf w') = [] /\
    currentPlayer (stateOf w') = Player.player /\
    playerScore (stateOf w') = 0 /\
    aiScore (stateOf w') = 0 /\
    moves (stateOf w') = 0 /\
    isGameActive (stateOf w') = true /\
    difficulty (stateOf w') = difficulty (stateOf w) /\
    config (fst w') = config (fst w) /\
    totalPairs (fst w') = (ofNat (rows (config (fst w)) * cols (config (fst w))) / 2)%Q /\
    MemoryAI.config (ai (fst w')) = MemoryAI.config (ai (fst w)) /\
    MemoryAI.memory (ai (fst w')) = [] /\
    GameUI.flipped (ui (fst w')) = [] /\
    GameUI.cardElements (ui (fst w')) = length (cards (stateOf w')) /\
    Permutation (cards (stateOf w'))
                (cardPairs (ofNat (rows (config (fst w)) * cols (config (fst w))) / 2)).
Proof.
  destruct w as [g rs]. unfold setupNewGame, generateCards, stateOf. run.
  unfold onAI, MemoryAI.update, MemoryGame.random, zoom. simpl.
  destruct (shuffleArray_perm (cardPairs (ofNat (rows (config g) * cols (config g)) / 2)) rs)
    as (l' & rs' & Hrun & Hperm).
  rewrite Hrun. simpl. eexists. split; [reflexivity|]. simpl.
  repeat (split; [reflexivity|]). exact Hperm.
Qed.

Lemma profile_in_profiles (d : string) (c : DifficultyConfig) :
  DIFFICULTIES d = Profile c -> In c profiles.
Proof.
  intro H. destruct (profile_cases d c H) as [E|[E|[E|E]]]; subst; simpl; tauto.
Qed.

Lemma loadSettings_effect (savedDifficulty : string) (rs : Oracle) (w : World) :
  loadSettings savedDifficulty (initial (snd (MemoryAI.new "beginner")), rs) = (Ok tt, w) ->
  In (config (fst w)) profiles /\
  MemoryAI.config (ai (fst w)) = Some (config (fst w)).
Proof.
  unfold loadSettings. run.
  destruct (String.eqb savedDifficulty "beginner").
  { intro H; inversion H; subst. simpl. tauto. }
  unfold changeDifficulty.
  destruct (DIFFICULTIES savedDifficulty) as [|c|] eqn:Hd.
  - intro H; inversion H; subst. simpl. tauto.
  - unfold bind at 1. unfold setState at 1. simpl.
    unfold bind at 1. unfold bind at 1.
    unfold onAI, MemoryAI.onSelf, zoom, MemoryAI.setDifficulty, MemoryAI.assignConfig.
    simpl. rewrite Hd. run.
    match goal with
    | |- setupNewGame ?w1 = _ -> _ =>
        destruct (setupNewGame_effect w1) as (w2 & Hrun & H)
    end.
    rewrite Hrun. intro E; inversion E; subst w2.
    destruct H as (_ & _ & _ & _ & _ & _ & _ & _ & Hcfg & _ & Hai & _).
    rewrite Hcfg, Hai. simpl. split; [now apply profile_in_profiles with savedDifficulty|].
    reflexivity.
  - run. discriminate.
Qed.

Lemma fresh_not_complete (c : DifficultyConfig) :
  In c profiles -> Qeq_bool (ofNat 0) (ofNat (rows c * cols c) / 2) = false.
Proof.
  intros [H|[H|[H|[H|[]]]]]; subst; reflexivity.
Qed.

Lemma profile_board_size (c : DifficultyConfig) :
  In c profiles ->
  length (cardPairs (ofNat (rows c * cols c) / 2)) = rows c * cols c /\ 0 < cols c.
Proof.
  intros [H|[H|[H|[H|[]]]]]; subst; split; try reflexivity; simpl; lia.
Qed.

Ltac split_invariant :=
  split; [|split; [|split; [|split; [|split; [|split; [|split; [|split; [|split; [|split]]]]]]]]].

Lemma complete_iff (k n : nat) :
  Qeq_bool (ofNat k) (ofNat n / 2) = true <-> 2 * k = n.
Proof.
  rewrite Qeq_bool_iff. unfold ofNat, Qeq, Qdiv, Qmult, Qinv. simpl. lia.
Qed.

Lemma profile_even (c : DifficultyConfig) :
  In c profiles -> exists half, rows c * cols c = 2 * half.
Proof.
  intros [H|[H|[H|[H|[]]]]]; subst; simpl;
    [exists 8 | exists 12 | exists 18 | exists 24]; reflexivity.
Qed.

Lemma start_invariant (savedDifficulty : string) (rs : Oracle) (w : World) :
  start savedDifficulty rs = (Ok tt, w) -> invariant w.
Proof.
  unfold start.
  change (MemoryAI.new "beginner") with (Ok tt, snd (MemoryAI.new "beginner")).
  cbv iota beta. unfold bind.
  destruct (loadSettings savedDifficulty (initial (snd (MemoryAI.new "beginner")), rs))
    as [[[]|x] w1] eqn:Hload; [|discriminate].
  destruct (loadSettings_effect _ _ _ Hload) as (Hin & Hc).
  destruct (setupNewGame_effect w1)
    as (w2 & Hrun & Hf & Hm & Hp & _ & _ & _ & Ha & _ & Hcfg & Htp & Hai & Hmem & Hui & _ & Hperm).
  rewrite Hrun. intro E; inversion E; subst w2.
  apply Permutation_length in Hperm.
  rewrite (proj1 (profile_board_size _ Hin)) in Hperm.
  unfold invariant. rewrite Hf, Ha, Hcfg, Htp, Hai, Hmem, Hperm. unfold isGameComplete.
  fold (stateOf w). rewrite Hm, Htp. simpl length.
  rewrite (fresh_not_complete _ Hin).
  split_invariant; try first [assumption | reflexivity].
  - intros x [].
  - simpl. lia.
  - intros i Hi. rewrite Hui in Hi. destruct Hi.
  - split; [constructor | intros k []].
  - simpl. lia.
Qed.

Lemma two_flipped (w : World) :
  invariant w -> length (flippedCards (stateOf w)) = 2 ->
  exists i1 i2 c1 c2,
    flippedCards (stateOf w) = [Some i1; Some i2] /\
    nth_error (cards (stateOf w)) i1 = Some c1 /\
    nth_error (cards (stateOf w)) i2 = Some c2.
Proof.
  intros (Hidx & _) Hlen.
  destruct (flippedCards (stateOf w)) as [|x1 [|x2 [|? ?]]] eqn:Hf; try discriminate.
  destruct (Hidx x1) as (i1 & E1 & L1); [simpl; tauto|].
  destruct (Hidx x2) as (i2 & E2 & L2); [simpl; tauto|].
  subst x1 x2.
  destruct (nth_error (cards (stateOf w)) i1) as [c1|] eqn:H1;
    [|apply nth_error_None in H1; lia].
  destruct (nth_error (cards (stateOf w)) i2) as [c2|] eqn:H2;
    [|apply nth_error_None in H2; lia].
  now exists i1, i2, c1, c2.
Qed.

Lemma valid_click_facts (s : GameState) (cardIndex : nat) :
  isValidCardClick s cardIndex = true ->
  isGameActive s = true /\ length (flippedCards s) < 2 /\
  currentPlayer s = Player.player.
Proof.
  unfold isValidCardClick.
  destruct (currentPlayer s); cbn [Player.eqb negb]; [|discriminate].
  destruct (isGameActive s); cbn [negb]; [|discriminate].
  destruct (_ || _); [discriminate|].
  destruct (2 <=? length (flippedCards s)) eqn:H; [discriminate|].
  apply Nat.leb_gt in H. auto.
Qed.

Lemma step_invariant (w w' : World) : invariant w -> step w w' -> invariant w'.
Proof.
  intros Hinv Hstep.
  destruct Hstep as [w w' cardIndex Hlt Hrun | w w' Hlen Hrun | w w' Hf Hp Ha Hrun].
  - destruct (reveal_effect _ _ _ Hrun)
      as [E | (Hv & _ & Hs & Hcfg & Htp & Hai & Hui & Hbel)]; [now subst|].
    destruct (valid_click_facts _ _ Hv) as (Hact & Hlen & _).
    destruct Hinv as (Hidx & _ & _ & Hcomp & Hc & Hu & Hin & Ht & Hb & Hsize & Hbound).
    unfold invariant, isGameComplete in *. fold (stateOf w'). rewrite Hs, Hcfg, Htp, Hai, Hui.
    simpl. split_invariant; try assumption.
    + intros x Hx. apply in_app_or in Hx. destruct Hx as [Hx|[Hx|[]]]; [now apply Hidx|].
      exists cardIndex. now split.
    + rewrite length_app. simpl. lia.
    + intros _. exact Hact.
    + now apply flipCard_sound.
    + apply Hbel; [lia | exact Hb].
  - destruct (two_flipped w Hinv Hlen) as (i1 & i2 & c1 & c2 & Hf & H1 & H2).
    destruct Hinv as (Hidx & _ & Hact & Hcomp & Hc & Hu & Hin & Ht & Hb & Hsize & Hbound).
    destruct (resolve_effect w i1 i2 c1 c2 _ Hf H1 H2 Hc Hu)
      as (w1 & Hrun1 & Hf' & Hm' & Hcards & _ & _ & Ha' & _ & Hcfg & Htp & Hai & Hmem & Hu' & _).
    rewrite Hrun in Hrun1. inversion Hrun1; subst w1.
    assert (Hactive : isGameActive (stateOf w) = true).
    { apply Hact. rewrite Hf. discriminate. }
    assert (Hopen : 2 * length (matchedPairs (stateOf w))
                    <> rows (config (fst w)) * cols (config (fst w))).
    { intro E. apply complete_iff in E. rewrite <- Ht in E.
      unfold isGameComplete in Hcomp. fold (stateOf w) in Hcomp.
      rewrite E, Hactive in Hcomp. discriminate. }
    destruct (profile_even _ Hin) as (half & Hhalf).
    unfold invariant, isGameComplete. fold (stateOf w').
    rewrite Hf', Hm', Ha', Hcfg, Htp, Hai, Hmem, Hcards, Hactive.
    split_invariant; try assumption.
    + intros x [].
    + simpl. lia.
    + intro H. now elim H.
    + now destruct (Qeq_bool _ _).
    + destruct (pairId c1 =? pairId c2); [rewrite length_app; simpl; lia | exact Hbound].
  - destruct (opponentReveal_effect _ _ Hrun)
      as [[_ E] | (first & second & _ & L1 & L2 & Hs & Hcfg & Htp & Hai & Hui & Hbel)];
      [now subst|].
    destruct Hinv as (Hidx & _ & _ & Hcomp & Hc & Hu & Hin & Ht & Hb & Hsize & Hbound).
    unfold invariant, isGameComplete in *. fold (stateOf w'). rewrite Hs, Hcfg, Htp, Hai, Hui.
    rewrite Hf. simpl. split_invariant; try assumption.
    + intros x [Hx|[Hx|[]]]; subst; eauto.
    + lia.
    + intros _. exact Ha.
    + now repeat apply flipCard_sound.
    + apply Hbel; [lia | lia | exact Hb].
Qed.

Lemma reachable_invariant (w : World) : reachable w -> invariant w.
Proof.
  induction 1 as [savedDifficulty rs w Hstart | w w' _ IH Hstep].
  - now apply start_invariant with savedDifficulty rs.
  - now apply step_invariant with w.
Qed.

(** ** No segment throws in a match *)

Lemma getAvailableCards_spec (s : GameState) :
  NoDup (getAvailableCards s) /\
  forall i, In i (getAvailableCards s) -> i < length (cards s).
Proof.
  unfold getAvailableCards. split.
  - apply NoDup_filter, seq_NoDup.
  - intros i Hi. apply filter_In in Hi. destruct Hi as [Hi _]. apply in_seq in Hi. lia.
Qed.

Lemma reveal_total (w : World) (cardIndex : nat) :
  invariant w -> cardIndex < length (cards (stateOf w)) ->
  exists w', reveal cardIndex w = (Ok tt, w').
Proof.
  intros (_ & _ & _ & _ & Hc & _ & _ & _ & Hb & Hsize & _) Hlt.
  unfold reveal, handleCardClick, makePlayerMove, stateOf in *. run.
  destruct (isValidCardClick (gameState (fst w)) cardIndex) eqn:Hv; simpl;
    [|eexists; reflexivity].
  destruct (valid_click_facts _ _ Hv) as (Ha & _). rewrite Ha. simpl.
  destruct (nth_error (cards (gameState (fst w))) cardIndex) as [card|] eqn:Hcard;
    [|apply nth_error_None in Hcard; lia].
  match goal with
  | |- context [onAI ?m ?w1] =>
      destruct (onAI_observeCard_total cardIndex (symbol card) true w1 _ Hc Hb) as (w2 & Hobs)
  end; [simpl; lia|].
  rewrite Hobs. destruct (_ =? 2); eexists; reflexivity.
Qed.

Lemma resolve_total (w : World) :
  invariant w -> length (flippedCards (stateOf w)) = 2 ->
  exists w', resolve w = (Ok tt, w').
Proof.
  intros Hinv Hlen.
  destruct (two_flipped w Hinv Hlen) as (i1 & i2 & c1 & c2 & Hf & H1 & H2).
  destruct Hinv as (_ & _ & _ & _ & Hc & Hu & _).
  destruct (resolve_effect w i1 i2 c1 c2 _ Hf H1 H2 Hc Hu) as (w' & Hrun & _).
  now exists w'.
Qed.

Lemma opponentReveal_total (w : World) :
  invariant w -> exists w', opponentReveal w = (Ok tt, w').
Proof.
  intros (_ & _ & _ & _ & Hc & _ & Hin & _ & Hb & Hsize & _).
  destruct (profile_board_size _ Hin) as (_ & Hcols).
  unfold opponentReveal, makeAIMove, stateOf in *. run.
  destruct (negb (Player.eqb _ _)); simpl; [eexists; reflexivity|].
  destruct (length (getAvailableCards (gameState (fst w))) <? 2) eqn:Hfew; simpl;
    [eexists; reflexivity|].
  apply Nat.ltb_ge in Hfew.
  destruct (getAvailableCards_spec (gameState (fst w))) as (Hnd & Hrange).
  destruct (makeMove_total (ai (fst w)) _ (getAvailableCards (gameState (fst w))) (snd w)
              Hc Hcols Hnd Hfew) as (first & second & rs1 & Hmove & Hx & Hy).
  apply Hrange in Hx, Hy.
  unfold onAI at 1. unfold zoom. simpl fst at 1. rewrite Hmove. simpl.
  destruct (nth_error (cards (gameState (fst w))) first) as [card1|] eqn:H1;
    [|apply nth_error_None in H1; lia].
  destruct (nth_error (cards (gameState (fst w))) second) as [card2|] eqn:H2;
    [|apply nth_error_None in H2; lia].
  match goal with
  | |- context [onAI (MemoryAI.observeCard first ?s false) ?w1] =>
      destruct (onAI_observeCard_total first s false w1 _ Hc Hb) as (w2 & Hobs1);
        [simpl; lia|];
      destruct (onAI_observeCard _ _ _ _ _ _ Hobs1) as (_ & _ & _ & _ & Hc2 & Hb2)
  end.
  rewrite Hobs1. simpl in Hc2, Hb2.
  rewrite <- Hc2 in Hc.
  destruct (onAI_observeCard_total second (symbol card2) false w2 _ Hc) as (w3 & Hobs2).
  { apply Hb2; [lia | exact Hb]. }
  { lia. }
  rewrite Hobs2. eexists. reflexivity.
Qed.

(** In a match every segment that can run returns normally. *)
Theorem match_never_throws (w : World) :
  reachable w ->
  (forall cardIndex, cardIndex < length (cards (stateOf w)) ->
     exists w', reveal cardIndex w = (Ok tt, w')) /\
  (length (flippedCards (stateOf w)) = 2 -> exists w', resolve w = (Ok tt, w')) /\
  (exists w', opponentReveal w = (Ok tt, w')).
Proof.
  intro Hreach. pose proof (reachable_invariant w Hreach) as Hinv.
  split; [|split].
  - intros cardIndex Hlt. now apply reveal_total.
  - now apply resolve_total.
  - now apply opponentReveal_total.
Qed.

(** ** Turns and the end of the match *)


(** C7: in a match, when two cards are revealed, their resolution returns
    normally; if their pair identifiers are equal the player to move is the
    one who revealed them, and if they differ it is the other player, the
    list of revealed cards is empty and neither card carries the class
    [flipped] any more. *)
Theorem C7_turn_after_resolution (w : World) :
  reachable w ->
  length (flippedCards (stateOf w)) = 2 ->
  exists (i1 i2 : nat) (c1 c2 : Card) (w' : World),
    flippedCards (stateOf w) = [Some i1; Some i2] /\
    nth_error (cards (stateOf w)) i1 = Some c1 /\
    nth_error (cards (stateOf w)) i2 = Some c2 /\
    resolve w = (Ok tt, w') /\
    (pairId c1 = pairId c2 ->
       currentPlayer (stateOf w') = currentPlayer (stateOf w)) /\
    (pairId c1 <> pairId c2 ->
       currentPlayer (stateOf w') = other (currentPlayer (stateOf w)) /\
       flippedCards (stateOf w') = [] /\
       ~ In i1 (GameUI.flipped (ui (fst w'))) /\
       ~ In i2 (GameUI.flipped (ui (fst w')))).
Proof.
  intros Hreach Hlen. pose proof (reachable_invariant w Hreach) as Hinv.
  destruct (two_flipped w Hinv Hlen) as (i1 & i2 & c1 & c2 & Hf & H1 & H2).
  destruct Hinv as (_ & _ & Hact & Hcomp & Hc & Hu & _).
  destruct (resolve_effect w i1 i2 c1 c2 _ Hf H1 H2 Hc Hu)
    as (w' & Hrun & Hf' & _ & _ & _ & _ & _ & Hp & _ & _ & _ & _ & _ & Hhid & _).
  exists i1, i2, c1, c2, w'. repeat (split; [assumption|]).
  split.
  - intro He. apply Nat.eqb_eq in He. now rewrite He in Hp.
  - intro Hne. apply Nat.eqb_neq in Hne. rewrite Hne in Hp. simpl in Hp.
    assert (Hactive : isGameActive (stateOf w) = true).
    { apply Hact. rewrite Hf. discriminate. }
    rewrite Hactive in Hcomp. unfold isGameComplete in Hcomp. fold (stateOf w) in Hcomp.
    destruct (Qeq_bool _ _); [discriminate|].
    split; [exact Hp|]. split; [exact Hf'|]. now apply Hhid.
Qed.

Lemma C7_witness :
  reachable (Replay.finish [Replay.Reveal 0; Replay.Reveal 13]) /\
  length (flippedCards (stateOf (Replay.finish [Replay.Reveal 0; Replay.Reveal 13]))) = 2 /\
  exists (i1 i2 : nat) (c1 c2 : Card) (w' : World),
    flippedCards (stateOf (Replay.finish [Replay.Reveal 0; Replay.Reveal 13]))
    = [Some i1; Some i2] /\
    pairId c1 <> pairId c2 /\
    resolve (Replay.finish [Replay.Reveal 0; Replay.Reveal 13]) = (Ok tt, w') /\
    currentPlayer (stateOf w') = Player.ai.
Proof.
  assert (Hreach : reachable (Replay.finish [Replay.Reveal 0; Replay.Reveal 13])).
  { apply execAll_reachable
      with [Replay.Reveal 0; Replay.Reveal 13] (snd (start "beginner" Replay.samples)).
    - apply reach_start with "beginner" Replay.samples. reflexivity.
    - vm_compute. reflexivity. }
  assert (Hlen : length (flippedCards
                           (stateOf (Replay.finish [Replay.Reveal 0; Replay.Reveal 13]))) = 2).
  { vm_compute. reflexivity. }
  split; [exact Hreach|]. split; [exact Hlen|].
  destruct (C7_turn_after_resolution _ Hreach Hlen)
    as (i1 & i2 & c1 & c2 & w' & Hf & H1 & H2 & Hrun & _ & Hmiss).
  exists i1, i2, c1, c2, w'. split; [exact Hf|].
  assert (Hi : i1 = 0 /\ i2 = 13).
  { vm_compute in Hf. inversion Hf. split; reflexivity. }
  destruct Hi; subst i1 i2.
  assert (Hne : pairId c1 <> pairId c2).
  { vm_compute in H1, H2. inversion H1. inversion H2. subst c1 c2. simpl. discriminate. }
  split; [exact Hne|]. split; [exact Hrun|].
  destruct (Hmiss Hne) as (Hp & _). rewrite Hp. vm_compute. reflexivity.
Defined.



(** ** The handlers as sequences of segments *)

Lemma handleCardClick_unfold (k : M World unit) (cardIndex : nat) (w : World) :
  handleCardClick k cardIndex w
  = match reveal cardIndex w with
    | (Ok _, w1) =>
        if isValidCardClick (stateOf w) cardIndex
           && (length (flippedCards (stateOf w1)) =? 2)
        then k w1 else (Ok tt, w1)
    | (Throw e, w1) => (Throw e, w1)
    end.
Proof.
  unfold reveal, handleCardClick, makePlayerMove, stateOf. run.
  destruct (isValidCardClick (gameState (fst w)) cardIndex); simpl; [|reflexivity].
  destruct (isGameActive (gameState (fst w))); simpl;
    destruct (nth_error _ cardIndex); try reflexivity;
    match goal with
    | |- context [onAI ?m ?w1] => destruct (onAI m w1) as [[[]|x] w2]
    end; try reflexivity;
    destruct (_ =? 2) eqn:E; simpl; rewrite ?E; reflexivity.
Qed.

Lemma makeAIMove_unfold (k : M World unit) (w : World) :
  makeAIMove k w
  = if negb (Player.eqb (currentPlayer (stateOf w)) Player.ai)
       || (length (getAvailableCards (stateOf w)) <? 2)
    then (Ok tt, w)
    else match opponentReveal w with
         | (Ok _, w1) => k w1
         | (Throw e, w1) => (Throw e, w1)
         end.
Proof.
  unfold opponentReveal, makeAIMove, stateOf. run.
  destruct (negb (Player.eqb _ _)); simpl; [reflexivity|].
  destruct (_ <? 2); simpl; [reflexivity|].
  match goal with
  | |- context [onAI ?m ?w1] => destruct (onAI m w1) as [[[firstCard secondCard]|x] w1']
  end; [|reflexivity].
  simpl. destruct firstCard as [first|]; [|reflexivity].
  destruct (nth_error _ first); [|reflexivity].
  match goal with
  | |- context [onAI ?m ?w1] => destruct (onAI m w1) as [[[]|x] w2]
  end; [|reflexivity].
  destruct secondCard as [second|]; [|reflexivity].
  destruct (nth_error _ second); [|reflexivity].
  match goal with
  | |- context [onAI ?m ?w1] => destruct (onAI m w1) as [[[]|x] w3]
  end; reflexivity.
Qed.

Opaque MemoryAI.recordMoveResult.

Lemma evaluateMove_unfold (k : M World unit) (w : World) :
  evaluateMove k w
  = match resolve w with
    | (Ok _, w1) =>
        if negb (isGameComplete (fst w1))
           && Player.eqb (currentPlayer (stateOf w1)) Player.ai
        then k w1 else (Ok tt, w1)
    | (Throw e, w1) => (Throw e, w1)
    end.
Proof.
  destruct w as [g rs].
  unfold resolve, evaluateMove, settleMove, handleMatch, handleMismatch, stateOf. run.
  destruct (nth 0 (flippedCards (gameState g)) None) as [i1|]; simpl; [|reflexivity].
  destruct (nth_error (cards (gameState g)) i1) as [c1|]; simpl; [|reflexivity].
  destruct (nth 1 (flippedCards (gameState g)) None) as [i2|]; simpl; [|reflexivity].
  destruct (nth_error (cards (gameState g)) i2) as [c2|]; simpl; [|reflexivity].
  unfold onAI, MemoryAI.onSelf, zoom. simpl.
  destruct (pairId c1 =? pairId c2); simpl.
  - destruct (currentPlayer (gameState g)) eqn:Hp; simpl;
      destruct (MemoryAI.recordMoveResult _ _ _ _) as [[[]|x] a']; simpl; try reflexivity;
      unfold isGameComplete; simpl;
      destruct (Qeq_bool _ _) eqn:Hc; simpl; rewrite ?Hp, ?Hc; simpl; rewrite ?Hp, ?Hc;
      reflexivity.
  - destruct (MemoryAI.recordMoveResult _ _ _ _) as [[[]|x] a']; simpl; try reflexivity.
    unfold isGameComplete; simpl.
    destruct (Qeq_bool _ _) eqn:Hc; simpl; rewrite ?Hc; simpl; [reflexivity|].
    destruct (currentPlayer (gameState g)); simpl; rewrite ?Hc; reflexivity.
Qed.

Transparent MemoryAI.recordMoveResult.

(** ** One click runs to its end *)

Lemma steps_one (w w' : World) : step w w' -> steps w w'.
Proof. intro H. eapply steps_more; [exact H | apply steps_none]. Qed.

Lemma steps_reachable (w w' : World) : steps w w' -> reachable w -> reachable w'.
Proof.
  induction 1 as [w | w w1 w' Hstep _ IH]; intro Hreach; [assumption|].
  apply IH. now apply reach_step with w.
Qed.

Lemma active_not_complete (w : World) :
  invariant w -> isGameActive (stateOf w) = true ->
  2 * matchedCount w <> length (cards (stateOf w)).
Proof.
  intros (_ & _ & _ & Hcomp & _ & _ & _ & Ht & _ & Hsize & _) Hactive E.
  unfold matchedCount in E. rewrite Hsize in E. apply complete_iff in E.
  rewrite <- Ht in E. unfold isGameComplete in Hcomp. fold (stateOf w) in Hcomp.
  rewrite E, Hactive in Hcomp. discriminate.
Qed.

Lemma evaluateMoveAll_terminates (depth : nat) :
  forall w : World,
    reachable w ->
    length (flippedCards (stateOf w)) = 2 ->
    resolutionsLeft w <= 2 * depth ->
    exists w', evaluateMoveAll depth w = (Ok tt, w') /\ steps w w'.
Proof.
  induction depth as [|d IH]; intros w Hreach Hlen Hm.
  - exfalso. pose proof (reachable_invariant w Hreach) as Hinv.
    assert (Hactive : isGameActive (stateOf w) = true).
    { destruct Hinv as (_ & _ & Hact & _). apply Hact.
      destruct (flippedCards (stateOf w)); discriminate. }
    pose proof (active_not_complete w Hinv Hactive) as Hopen.
    destruct Hinv as (_ & _ & _ & _ & _ & _ & _ & _ & _ & Hsize & Hbound).
    unfold resolutionsLeft, matchedCount in *. rewrite Hsize in *. lia.
  - pose proof (reachable_invariant w Hreach) as Hinv.
    assert (Hactive : isGameActive (stateOf w) = true).
    { destruct Hinv as (_ & _ & Hact & _). apply Hact.
      destruct (flippedCards (stateOf w)); discriminate. }
    pose proof (active_not_complete w Hinv Hactive) as Hopen.
    destruct (two_flipped w Hinv Hlen) as (i1 & i2 & c1 & c2 & Hf & H1 & H2).
    pose proof Hinv as (_ & _ & _ & _ & Hc & Hu & _ & _ & _ & Hsize & Hbound).
    destruct (resolve_effect w i1 i2 c1 c2 _ Hf H1 H2 Hc Hu)
      as (w1 & Hrun & Hf1 & Hm1 & Hcards1 & _ & _ & _ & Hp1 & _ & Htp1 & _).
    assert (Hstep1 : step w w1) by now apply step_resolve.
    assert (Hreach1 : reachable w1) by now apply reach_step with w.
    simpl evaluateMoveAll. rewrite evaluateMove_unfold, Hrun.
    destruct (negb (isGameComplete (fst w1))) eqn:Hopen1; simpl;
      [|exists w1; split; [reflexivity | now apply steps_one]].
    destruct (Player.eqb (currentPlayer (stateOf w1)) Player.ai) eqn:Hai; simpl;
      [|exists w1; split; [reflexivity | now apply steps_one]].
    rewrite makeAIMove_unfold.
    destruct (negb _ || _) eqn:Hguard;
      [exists w1; split; [reflexivity | now apply steps_one]|].
    pose proof (reachable_invariant w1 Hreach1) as Hinv1.
    destruct (opponentReveal_total w1 Hinv1) as (w2 & Hrun2). rewrite Hrun2.
    destruct (opponentReveal_effect _ _ Hrun2)
      as [[Hg _] | (first & second & _ & _ & _ & Hs2 & _)]; [congruence|].
    assert (Hturn : currentPlayer (stateOf w1) = Player.ai)
      by now destruct (currentPlayer (stateOf w1)).
    assert (Hstep2 : step w1 w2).
    { apply step_opponent; try assumption.
      destruct Hinv1 as (_ & _ & _ & Hcomp1 & _). rewrite Hcomp1. exact Hopen1. }
    destruct (IH w2) as (w' & Hrun' & Hsteps).
    + now apply reach_step with w1.
    + rewrite Hs2, Hf1. reflexivity.
    + unfold resolutionsLeft, matchedCount in *. rewrite Hs2. simpl.
      rewrite Hturn, Hcards1, Hm1. rewrite Hturn in Hp1.
      unfold isGameComplete in Hopen1. fold (stateOf w1) in Hopen1.
      rewrite Hm1, Htp1 in Hopen1. apply negb_true_iff in Hopen1.
      rewrite Hopen1, orb_false_r in Hp1.
      destruct (pairId c1 =? pairId c2).
      * rewrite <- Hp1 in Hm. rewrite length_app. simpl. lia.
      * destruct (currentPlayer (stateOf w)); [lia | discriminate].
    + exists w'. split; [exact Hrun'|].
      apply steps_more with w1; [assumption|]. now apply steps_more with w2.
Qed.

(** The handler of a click on a card of the board returns normally, and
    what it does is a sequence of steps of the match: the reveal, and after
    a second reveal the resolution and the reveals and resolutions of the
    opponent for as long as it keeps the turn. *)
Theorem cardClicked_terminates (w : World) (cardIndex : nat) :
  reachable w ->
  cardIndex < length (cards (stateOf w)) ->
  exists w', cardClicked cardIndex w = (Ok tt, w') /\ steps w w' /\ reachable w'.
Proof.
  intros Hreach Hlt. pose proof (reachable_invariant w Hreach) as Hinv.
  destruct (reveal_total w cardIndex Hinv Hlt) as (w1 & Hrun).
  assert (Hstep : step w w1) by now apply step_reveal with cardIndex.
  assert (Hreach1 : reachable w1) by now apply reach_step with w.
  unfold cardClicked. rewrite handleCardClick_unfold, Hrun.
  destruct (isValidCardClick (stateOf w) cardIndex && _) eqn:Hsecond;
    [|exists w1; split; [reflexivity | split; [now apply steps_one | assumption]]].
  apply andb_true_iff in Hsecond. destruct Hsecond as [_ Hlen]. apply Nat.eqb_eq in Hlen.
  destruct (reveal_effect _ _ _ Hrun) as [E | (_ & _ & Hs & _)].
  - subst w1.
    destruct (evaluateMoveAll_terminates (S (length (cards (stateOf w)))) w Hreach Hlen)
      as (w' & Hrun' & Hsteps).
    + unfold resolutionsLeft. destruct (currentPlayer (stateOf w)); lia.
    + exists w'. split; [exact Hrun'|]. split; [assumption|].
      now apply steps_reachable with w.
  - destruct (evaluateMoveAll_terminates (S (length (cards (stateOf w)))) w1 Hreach1 Hlen)
      as (w' & Hrun' & Hsteps).
    + unfold resolutionsLeft, matchedCount. rewrite Hs. simpl.
      destruct (currentPlayer (stateOf w)); lia.
    + exists w'. split; [exact Hrun'|]. split.
      * now apply steps_more with w1.
      * now apply steps_reachable with w1.
Qed.

(** * What a match keeps besides the invariant *)

#[export] Instance Frame_keeps {S : Type} (P : S -> Prop) : Frame (keeps P).
Proof. split; unfold keeps; auto. Qed.

Lemma reveal_invalid (cardIndex : nat) (w : World) :
  isValidCardClick (stateOf w) cardIndex = false -> reveal cardIndex w = (Ok tt, w).
Proof.
  unfold reveal, handleCardClick, stateOf. run. intro H. rewrite H. reflexivity.
Qed.

Lemma reveal_run (cardIndex : nat) (w : World) (card : Card) (e : MemoryAI.Env) :
  isValidCardClick (stateOf w) cardIndex = true ->
  nth_error (cards (stateOf w)) cardIndex = Some card ->
  MemoryAI.observeCard cardIndex (symbol card) true (ai (fst w), snd w) = (Ok tt, e) ->
  reveal cardIndex w
  = (Ok tt,
     ({| ui := GameUI.flipCard (Some cardIndex) (ui (fst w));
         ai := fst e;
         gameState :=
           with_flippedCards (flippedCards (stateOf w) ++ [Some cardIndex]) (stateOf w);
         config := config (fst w);
         totalPairs := totalPairs (fst w) |}, snd e)).
Proof.
  intros Hv Hcard Hobs. destruct (valid_click_facts _ _ Hv) as (Ha & _).
  unfold reveal, handleCardClick, makePlayerMove, stateOf in *. run.
  rewrite Hv, Ha. simpl. rewrite Hcard.
  unfold onAI, zoom. simpl. rewrite Hobs. simpl.
  destruct (_ =? 2); reflexivity.
Qed.

Lemma opponentReveal_idle (w : World) :
  negb (Player.eqb (currentPlayer (stateOf w)) Player.ai)
  || (length (getAvailableCards (stateOf w)) <? 2) = true ->
  opponentReveal w = (Ok tt, w).
Proof.
  unfold opponentReveal, makeAIMove, stateOf. run.
  destruct (negb _); simpl; [reflexivity|]. intro H. rewrite H. reflexivity.
Qed.

Lemma opponentReveal_run (w : World) (first second : nat) (card1 card2 : Card)
    (a1 : MemoryAI.t) (rs1 : Oracle) (e2 e3 : MemoryAI.Env) :
  negb (Player.eqb (currentPlayer (stateOf w)) Player.ai)
  || (length (getAvailableCards (stateOf w)) <? 2) = false ->
  MemoryAI.makeMove (getAvailableCards (stateOf w)) (ai (fst w), snd w)
  = (Ok (Some first, Some second), (a1, rs1)) ->
  nth_error (cards (stateOf w)) first = Some card1 ->
  nth_error (cards (stateOf w)) second = Some card2 ->
  MemoryAI.observeCard first (symbol card1) false (a1, rs1) = (Ok tt, e2) ->
  MemoryAI.observeCard second (symbol card2) false e2 = (Ok tt, e3) ->
  opponentReveal w
  = (Ok tt,
     ({| ui := GameUI.flipCard (Some second) (GameUI.flipCard (Some first) (ui (fst w)));
         ai := fst e3;
         gameState :=
           with_flippedCards ((flippedCards (stateOf w) ++ [Some first]) ++ [Some second])
             (stateOf w);
         config := config (fst w);
         totalPairs := totalPairs (fst w) |}, snd e3)).
Proof.
  intros Hg Hmove H1 H2 Hobs1 Hobs2. apply orb_false_iff in Hg. destruct Hg as [Hturn Hfew].
  unfold opponentReveal, makeAIMove, stateOf in *. run.
  rewrite Hturn. simpl. rewrite Hfew. simpl.
  unfold onAI at 1. unfold zoom. simpl. rewrite Hmove. simpl. rewrite H1.
  unfold onAI at 1. unfold zoom. simpl. rewrite Hobs1. simpl. rewrite H2.
  unfold onAI at 1. unfold zoom. simpl. destruct e2 as [a2 rs2]. simpl in *.
  rewrite Hobs2. reflexivity.
Qed.

Opaque MemoryAI.recordMoveResult.

Lemma resolve_detail (w : World) (i1 i2 : nat) (c1 c2 : Card) (c : DifficultyConfig) :
  flippedCards (stateOf w) = [Some i1; Some i2] ->
  nth_error (cards (stateOf w)) i1 = Some c1 ->
  nth_error (cards (stateOf w)) i2 = Some c2 ->
  MemoryAI.config (ai (fst w)) = Some c ->
  exists (w' : World) (a' : MemoryAI.t),
    resolve w = (Ok tt, w') /\
    let s := stateOf w in
    let s' := stateOf w' in
    let isMatch := pairId c1 =? pairId c2 in
    let shown :=
      if isMatch then GameUI.markCardsAsMatched [i1; i2] (ui (fst w))
      else GameUI.flipCardBack (Some i2) (GameUI.flipCardBack (Some i1) (ui (fst w))) in
    MemoryAI.recordMoveResult (i1, i2) isMatch (symbol c1, symbol c2) (ai (fst w))
    = (Ok tt, a') /\
    ai (fst w') = a' /\
    snd w' = snd w /\
    playerScore s'
    = playerScore s
      + (if isMatch && Player.eqb (currentPlayer s) Player.player then 1 else 0) /\
    aiScore s'
    = aiScore s + (if isMatch && Player.eqb (currentPlayer s) Player.ai then 1 else 0) /\
    ui (fst w')
    = if Qeq_bool (ofNat (length (matchedPairs s'))) (totalPairs (fst w))
      then GameUI.showGameOverModal (resultOf s') shown
      else shown.
Proof.
  intros Hf H1 H2 Hc. destruct w as [g rs]. unfold stateOf in *. simpl in *.
  unfold resolve, evaluateMove, settleMove, handleMatch, handleMismatch. run.
  rewrite Hf. simpl. rewrite H1, H2. simpl.
  unfold onAI, MemoryAI.onSelf, zoom. simpl.
  destruct (recordMoveResult_ok (i1, i2) (pairId c1 =? pairId c2) (symbol c1, symbol c2)
              (ai g) c Hc) as (a' & Hr & _).
  destruct (pairId c1 =? pairId c2) eqn:Hm; simpl.
  - destruct (currentPlayer (gameState g)) eqn:Hp; simpl; rewrite Hr; simpl;
      unfold isGameComplete; simpl;
      destruct (Qeq_bool _ _) eqn:Hcomplete; simpl; rewrite ?Hp; simpl;
      (eexists; exists a'; split; [reflexivity|]); simpl;
      rewrite ?Hcomplete;
      repeat split; try reflexivity; try exact Hr; try lia.
  - rewrite Hr. simpl. unfold isGameComplete. simpl.
    destruct (currentPlayer (gameState g)) eqn:Hp;
    destruct (Qeq_bool _ _) eqn:Hcomplete; simpl; rewrite ?Hp; simpl;
      (eexists; exists a'; split; [reflexivity|]); simpl;
      rewrite ?Hcomplete;
      repeat split; try reflexivity; try exact Hr; try lia.
Qed.

Transparent MemoryAI.recordMoveResult.

(** ** The opponent's memory tells the truth *)

Lemma Nat_eqb_iff (x y : nat) : Nat.eqb x y = true <-> x = y.
Proof. apply Nat.eqb_eq. Qed.

Lemma truthful_set (board : list Card) (memory : list (nat * Symbol)) (index : nat)
    (card : Card) :
  truthful board memory -> nth_error board index = Some card ->
  truthful board (JsMap.set Nat.eqb memory index (symbol card)).
Proof.
  intros Ht Hcard i sym. rewrite (get_set Nat.eqb Nat_eqb_iff).
  destruct (i =? index) eqn:E.
  - apply Nat.eqb_eq in E. subst i. intro H. inversion H. now exists card.
  - apply Ht.
Qed.

Lemma observeCard_truthful (board : list Card) (index : nat) (card : Card)
    (isPlayer : bool) :
  nth_error board index = Some card ->
  preserves (fun e e' : MemoryAI.Env =>
               keeps (fun a => truthful board (MemoryAI.memory a)) (fst e) (fst e'))
            (MemoryAI.observeCard index (symbol card) isPlayer).
Proof.
  intro Hcard. unfold MemoryAI.observeCard, MemoryAI.updateProbabilities.
  repeat frame_step; unfold keeps; simpl; try tauto.
  intro Ht. now apply truthful_set.
Qed.

Lemma observeCard_step (board : list Card) (c : DifficultyConfig) (a : MemoryAI.t)
    (rs : Oracle) (index : nat) (card : Card) (isPlayer : bool) :
  MemoryAI.config a = Some c ->
  beliefOnBoard (rows c * cols c) (MemoryAI.memory a) ->
  index < rows c * cols c ->
  truthful board (MemoryAI.memory a) ->
  nth_error board index = Some card ->
  exists (a' : MemoryAI.t) (rs' : Oracle),
    MemoryAI.observeCard index (symbol card) isPlayer (a, rs) = (Ok tt, (a', rs')) /\
    MemoryAI.config a' = Some c /\
    beliefOnBoard (rows c * cols c) (MemoryAI.memory a') /\
    truthful board (MemoryAI.memory a').
Proof.
  intros Hc Hb Hi Ht Hcard.
  destruct (observeCard_estimates c a rs index (symbol card) isPlayer Hc Hb Hi)
    as (a' & rs' & Hrun & Hb' & _).
  exists a', rs'. split; [exact Hrun|].
  pose proof (observeCard_sameProfile index (symbol card) isPlayer (a, rs)) as Hp.
  pose proof (observeCard_truthful board index card isPlayer Hcard (a, rs)) as Hk.
  rewrite Hrun in Hp, Hk. simpl in Hp, Hk. destruct Hp as (Hp & _).
  split; [congruence|]. split; [exact Hb'|]. now apply Hk.
Qed.

(** ** The page and the game state *)

Lemma includes_In (l : list nat) (x : nat) : includes l x = true <-> In x l.
Proof.
  unfold includes. rewrite existsb_exists. split.
  - intros (y & Hy & E). apply Nat.eqb_eq in E. now subst.
  - intro H. exists x. split; [exact H | apply Nat.eqb_refl].
Qed.

Lemma flipCard_In (i j : nat) (u : GameUI.t) :
  j < GameUI.cardElements u ->
  In i (GameUI.flipped (GameUI.flipCard (Some j) u)) <-> In i (GameUI.flipped u) \/ i = j.
Proof.
  intro Hj. unfold GameUI.flipCard, GameUI.hasElement, GameUI.addClass.
  apply Nat.ltb_lt in Hj. rewrite Hj. simpl.
  destruct (includes (GameUI.flipped u) j) eqn:E.
  - apply includes_In in E. split; [auto|]. intros [H|H]; [exact H | now subst].
  - rewrite in_app_iff. simpl. split; intros [H|H]; auto.
    + destruct H as [H|[]]. auto.
Qed.

Lemma flipCardBack_In (i j : nat) (u : GameUI.t) :
  j < GameUI.cardElements u ->
  In i (GameUI.flipped (GameUI.flipCardBack (Some j) u)) <-> In i (GameUI.flipped u) /\ i <> j.
Proof.
  intro Hj. unfold GameUI.flipCardBack, GameUI.hasElement, GameUI.removeClass.
  apply Nat.ltb_lt in Hj. rewrite Hj. simpl.
  rewrite filter_In, negb_true_iff, Nat.eqb_neq. reflexivity.
Qed.

Lemma flipCard_elements (x : option nat) (u : GameUI.t) :
  GameUI.cardElements (GameUI.flipCard x u) = GameUI.cardElements u /\
  GameUI.gameOver (GameUI.flipCard x u) = GameUI.gameOver u.
Proof. unfold GameUI.flipCard. now destruct (GameUI.hasElement u x). Qed.

Lemma flipCardBack_elements (x : option nat) (u : GameUI.t) :
  GameUI.cardElements (GameUI.flipCardBack x u) = GameUI.cardElements u /\
  GameUI.gameOver (GameUI.flipCardBack x u) = GameUI.gameOver u.
Proof. unfold GameUI.flipCardBack. now destruct (GameUI.hasElement u x). Qed.

Lemma flippedIncludes_iff (s : GameState) (i : nat) :
  flippedIncludes s i = true <-> In (Some i) (flippedCards s).
Proof.
  unfold flippedIncludes. rewrite existsb_exists. split.
  - intros ([j|] & Hj & E); [|discriminate]. apply Nat.eqb_eq in E. now subst.
  - intro H. exists (Some i). split; [exact H | apply Nat.eqb_refl].
Qed.

Lemma isCardMatched_iff (s : GameState) (i : nat) :
  isCardMatched s i = true
  <-> exists pair, In pair (matchedPairs s) /\ (fst pair = i \/ snd pair = i).
Proof.
  unfold isCardMatched. rewrite existsb_exists. split.
  - intros (pair & Hin & E). exists pair. split; [exact Hin|].
    apply orb_true_iff in E. destruct E as [E|E]; apply Nat.eqb_eq in E; auto.
  - intros (pair & Hin & E). exists pair. split; [exact Hin|].
    apply orb_true_iff. destruct E as [E|E]; [left|right]; now apply Nat.eqb_eq.
Qed.

Lemma faceUp_iff (s : GameState) (i : nat) :
  faceUp s i = true
  <-> In (Some i) (flippedCards s)
      \/ exists pair, In pair (matchedPairs s) /\ (fst pair = i \/ snd pair = i).
Proof.
  unfold faceUp. now rewrite orb_true_iff, flippedIncludes_iff, isCardMatched_iff.
Qed.

Lemma getAvailableCards_iff (s : GameState) (i : nat) :
  In i (getAvailableCards s)
  <-> i < length (cards s) /\ flippedIncludes s i = false /\ isCardMatched s i = false.
Proof.
  unfold getAvailableCards. rewrite filter_In, in_seq, andb_true_iff, !negb_true_iff.
  split; intros (H1 & H2); (split; [lia | exact H2]).
Qed.

Lemma valid_click_hidden (s : GameState) (cardIndex : nat) :
  isValidCardClick s cardIndex = true ->
  flippedIncludes s cardIndex = false /\ isCardMatched s cardIndex = false.
Proof.
  unfold isValidCardClick.
  destruct (negb (Player.eqb _ _)); [discriminate|].
  destruct (negb (isGameActive s)); [discriminate|].
  destruct (flippedIncludes s cardIndex); [discriminate|].
  destruct (isCardMatched s cardIndex); [discriminate|]. auto.
Qed.

Ltac split_consistent := split; [|split; [|split; [|split; [|split; [|split; [|split]]]]]].

Lemma start_consistent (savedDifficulty : string) (rs : Oracle) (w : World) :
  start savedDifficulty rs = (Ok tt, w) -> consistent w.
Proof.
  unfold start.
  change (MemoryAI.new "beginner") with (Ok tt, snd (MemoryAI.new "beginner")).
  cbv iota beta. unfold bind.
  destruct (loadSettings savedDifficulty (initial (snd (MemoryAI.new "beginner")), rs))
    as [[[]|x] w1] eqn:Hload; [|discriminate].
  destruct (setupNewGame_effect w1)
    as (w2 & Hrun & Hf & Hm & _ & Hps & Has & Hmv & Ha & _ & _ & _ & _ & Hmem & Hui & Hel & _).
  rewrite Hrun. intro E; inversion E; subst w2.
  unfold consistent, faceUp, flippedIncludes, isCardMatched.
  rewrite Hf, Hm, Hps, Has, Hmv, Ha, Hmem, Hui, Hel. simpl.
  split_consistent; try reflexivity; try discriminate.
  - intro i. split; [intros [] | discriminate].
  - intros pair [].
Qed.

Lemma reveal_consistent (w w' : World) (cardIndex : nat) :
  invariant w -> consistent w ->
  cardIndex < length (cards (stateOf w)) ->
  reveal cardIndex w = (Ok tt, w') -> consistent w'.
Proof.
  intros Hinv Hcons Hlt Hrun.
  destruct (isValidCardClick (stateOf w) cardIndex) eqn:Hv.
  2:{ rewrite (reveal_invalid _ _ Hv) in Hrun. inversion Hrun. now subst. }
  destruct Hinv as (_ & _ & _ & _ & Hc & _ & _ & _ & Hb & Hsize & _).
  destruct Hcons as (Hscore & Hmoves & Hhid & Hel & Hpage & Htruth & Hover & Hboard).
  destruct (nth_error (cards (stateOf w)) cardIndex) as [card|] eqn:Hcard;
    [|apply nth_error_None in Hcard; lia].
  destruct (observeCard_step (cards (stateOf w)) _ (ai (fst w)) (snd w) cardIndex card true
              Hc Hb ltac:(lia) Htruth Hcard) as (a' & rs' & Hobs & _ & _ & Htruth').
  rewrite (reveal_run _ _ _ _ Hv Hcard Hobs) in Hrun. inversion Hrun; subst w'. clear Hrun.
  destruct (valid_click_facts _ _ Hv) as (Hact & _).
  destruct (valid_click_hidden _ _ Hv) as (Hnf & Hnm).
  unfold consistent, stateOf in *. simpl.
  split_consistent; try assumption.
  - intros i Hi. apply flippedIncludes_iff in Hi. simpl in Hi.
    apply in_app_or in Hi. destruct Hi as [Hi|[Hi|[]]].
    + apply Hhid. now apply flippedIncludes_iff.
    + inversion Hi. now subst.
  - now rewrite (proj1 (flipCard_elements _ _)).
  - intro i. rewrite flipCard_In by lia. rewrite Hpage, !faceUp_iff. simpl.
    rewrite in_app_iff. simpl. split.
    + intros [[H|H]|H]; [auto | auto | subst; auto].
    + intros [[H|[H|[]]]|H]; [auto | inversion H; auto | auto].
  - simpl. rewrite Hact. discriminate.
Qed.

Lemma opponentReveal_shape (w w' : World) :
  invariant w -> consistent w ->
  opponentReveal w = (Ok tt, w') ->
  negb (Player.eqb (currentPlayer (stateOf w)) Player.ai)
  || (length (getAvailableCards (stateOf w)) <? 2) = false ->
  exists (first second : nat) (a' : MemoryAI.t) (rs' : Oracle),
    In first (getAvailableCards (stateOf w)) /\
    In second (getAvailableCards (stateOf w)) /\
    truthful (cards (stateOf w)) (MemoryAI.memory a') /\
    w' = ({| ui := GameUI.flipCard (Some second)
                     (GameUI.flipCard (Some first) (ui (fst w)));
             ai := a';
             gameState :=
               with_flippedCards
                 ((flippedCards (stateOf w) ++ [Some first]) ++ [Some second]) (stateOf w);
             config := config (fst w);
             totalPairs := totalPairs (fst w) |}, rs').
Proof.
  intros Hinv Hcons Hrun Hguard.
  destruct Hinv as (_ & _ & _ & _ & Hc & _ & Hin & _ & Hb & Hsize & _).
  destruct Hcons as (_ & _ & _ & _ & _ & Htruth & _ & _).
  destruct (profile_board_size _ Hin) as (_ & Hcols).
  pose proof Hguard as Hg. apply orb_false_iff in Hg. destruct Hg as [_ Hfew].
  apply Nat.ltb_ge in Hfew.
  destruct (getAvailableCards_spec (stateOf w)) as (Hnd & Hrange).
  destruct (makeMove_total (ai (fst w)) _ (getAvailableCards (stateOf w)) (snd w)
              Hc Hcols Hnd Hfew) as (first & second & rs1 & Hmove & Hx & Hy).
  pose proof (Hrange _ Hx) as L1. pose proof (Hrange _ Hy) as L2.
  destruct (nth_error (cards (stateOf w)) first) as [card1|] eqn:H1;
    [|apply nth_error_None in H1; lia].
  destruct (nth_error (cards (stateOf w)) second) as [card2|] eqn:H2;
    [|apply nth_error_None in H2; lia].
  destruct (observeCard_step (cards (stateOf w)) _ (ai (fst w)) rs1 first card1 false
              Hc Hb ltac:(lia) Htruth H1) as (a2 & rs2 & Hobs1 & Hc2 & Hb2 & Ht2).
  destruct (observeCard_step (cards (stateOf w)) _ a2 rs2 second card2 false
              Hc2 Hb2 ltac:(lia) Ht2 H2) as (a3 & rs3 & Hobs2 & _ & _ & Ht3).
  rewrite (opponentReveal_run w first second card1 card2 _ _ _ _ Hguard Hmove H1 H2 Hobs1 Hobs2)
    in Hrun.
  inversion Hrun. exists first, second, a3, rs3. repeat split; assumption.
Qed.

Lemma opponentReveal_consistent (w w' : World) :
  invariant w -> consistent w ->
  flippedCards (stateOf w) = [] ->
  opponentReveal w = (Ok tt, w') -> consistent w'.
Proof.
  intros Hinv Hcons Hf Hrun.
  destruct (negb (Player.eqb (currentPlayer (stateOf w)) Player.ai)
            || (length (getAvailableCards (stateOf w)) <? 2)) eqn:Hguard.
  { rewrite (opponentReveal_idle _ Hguard) in Hrun. inversion Hrun. now subst. }
  destruct (opponentReveal_shape w w' Hinv Hcons Hrun Hguard)
    as (first & second & a' & rs' & Hx & Hy & Htruth' & E).
  subst w'.
  apply getAvailableCards_iff in Hx, Hy.
  destruct Hx as (L1 & _ & M1). destruct Hy as (L2 & _ & M2).
  destruct Hinv as (_ & _ & Hact & _).
  destruct Hcons as (Hscore & Hmoves & Hhid & Hel & Hpage & Htruth & Hover & Hboard).
  unfold consistent, stateOf in *. simpl. rewrite Hf. simpl.
  split_consistent; try assumption.
  - intros i Hi. apply flippedIncludes_iff in Hi. simpl in Hi.
    destruct Hi as [Hi|[Hi|[]]]; inversion Hi; now subst.
  - now rewrite (proj1 (flipCard_elements _ _)), (proj1 (flipCard_elements _ _)).
  - intro i. rewrite flipCard_In by (rewrite (proj1 (flipCard_elements _ _)); lia).
    rewrite flipCard_In by lia. rewrite Hpage, !faceUp_iff. simpl. rewrite Hf. simpl.
    split.
    + intros [[[[]|H]|H]|H]; [auto | subst; auto | subst; auto].
    + intros [[H|[H|[]]]|H]; [inversion H; auto | inversion H; auto | auto].
  - intro H. rewrite !(proj2 (flipCard_elements _ _)). now apply Hover.
Qed.

Ltac case_complete :=
  match goal with |- context [Qeq_bool ?a ?b] => destruct (Qeq_bool a b) end.

Lemma resolve_consistent (w w' : World) :
  invariant w -> consistent w ->
  length (flippedCards (stateOf w)) = 2 ->
  resolve w = (Ok tt, w') -> consistent w'.
Proof.
  intros Hinv Hcons Hlen Hrun.
  destruct (two_flipped w Hinv Hlen) as (i1 & i2 & c1 & c2 & Hf & H1 & H2).
  destruct Hinv as (_ & _ & Hact & _ & Hc & Hu & _).
  destruct (resolve_effect w i1 i2 c1 c2 _ Hf H1 H2 Hc Hu)
    as (w1 & Hrun1 & Hf' & Hm' & Hcards & Hd' & Hmv' & Ha' & _ & _ & _ & _ & Hmem & _).
  rewrite Hrun in Hrun1. inversion Hrun1; subst w1. clear Hrun1.
  destruct (resolve_detail w i1 i2 c1 c2 _ Hf H1 H2 Hc)
    as (w1 & a' & Hrun1 & _ & _ & _ & Hps & Has & Hui).
  rewrite Hrun in Hrun1. inversion Hrun1; subst w1. clear Hrun1.
  cbv zeta in *.
  assert (Hactive : isGameActive (stateOf w) = true).
  { apply Hact. rewrite Hf. discriminate. }
  assert (L1 : i1 < length (cards (stateOf w))) by (apply nth_error_Some; congruence).
  assert (L2 : i2 < length (cards (stateOf w))) by (apply nth_error_Some; congruence).
  destruct Hcons as (Hscore & Hmoves & Hhid & Hel & Hpage & Htruth & Hover & Hboard).
  assert (Hshown :
    let shown :=
      if pairId c1 =? pairId c2 then GameUI.markCardsAsMatched [i1; i2] (ui (fst w))
      else GameUI.flipCardBack (Some i2) (GameUI.flipCardBack (Some i1) (ui (fst w))) in
    GameUI.cardElements shown = length (cards (stateOf w)) /\
    forall i, In i (GameUI.flipped shown) <-> faceUp (stateOf w') i = true).
  { cbv zeta. destruct (pairId c1 =? pairId c2); simpl.
    - split.
      + now rewrite (proj1 (flipCard_elements _ _)), (proj1 (flipCard_elements _ _)).
      + intro i. rewrite flipCard_In by (rewrite (proj1 (flipCard_elements _ _)); lia).
        rewrite flipCard_In by lia. rewrite Hpage, !faceUp_iff, Hf, Hf', Hm'. simpl.
        split.
        * assert (Hnew : In (i1, i2) (matchedPairs (stateOf w) ++ [(i1, i2)]))
            by (rewrite in_app_iff; simpl; auto).
          intros [[[[H|[H|[]]]|(pair & Hin & H)]|H]|H].
          -- injection H as E. right. exists (i1, i2). simpl. auto.
          -- injection H as E. right. exists (i1, i2). simpl. auto.
          -- right. exists pair. rewrite in_app_iff. auto.
          -- right. exists (i1, i2). simpl. auto.
          -- right. exists (i1, i2). simpl. auto.
        * intros [[]|(pair & Hin & H)]. apply in_app_or in Hin.
          destruct Hin as [Hin|[Hin|[]]].
          -- left. left. right. now exists pair.
          -- subst pair. simpl in H. destruct H as [H|H]; subst; auto.
    - split.
      + now rewrite (proj1 (flipCardBack_elements _ _)), (proj1 (flipCardBack_elements _ _)).
      + intro i.
        rewrite flipCardBack_In by (rewrite (proj1 (flipCardBack_elements _ _)); lia).
        rewrite flipCardBack_In by lia. rewrite Hpage, !faceUp_iff, Hf, Hf', Hm'. simpl.
        split.
        * intros [[[[H|[H|[]]]|H] N1] N2]; [inversion H; lia | inversion H; lia | auto].
        * intros [[]|H].
          assert (Hm : isCardMatched (stateOf w) i = true) by now apply isCardMatched_iff.
          repeat split; [auto | |]; intro E; subst i.
          -- rewrite Hhid in Hm; [discriminate|].
             apply flippedIncludes_iff. rewrite Hf. simpl. auto.
          -- rewrite Hhid in Hm; [discriminate|].
             apply flippedIncludes_iff. rewrite Hf. simpl. auto. }
  cbv zeta in Hshown. destruct Hshown as (Hel' & Hpage').
  unfold consistent. rewrite Hcards.
  split_consistent.
  - rewrite Hps, Has, Hm'.
    destruct (pairId c1 =? pairId c2); simpl; [|lia].
    rewrite length_app. simpl. destruct (currentPlayer (stateOf w)); simpl; lia.
  - rewrite Hmv', Hm'. destruct (pairId c1 =? pairId c2); [|lia].
    rewrite length_app. simpl. lia.
  - intros i Hi. apply flippedIncludes_iff in Hi. rewrite Hf' in Hi. destruct Hi.
  - rewrite Hui. case_complete; exact Hel'.
  - intro i. rewrite <- Hpage', Hui. case_complete; reflexivity.
  - now rewrite Hmem.
  - rewrite Ha', Hactive, Hui, Hm'. case_complete; [reflexivity | discriminate].
  - rewrite Hm'. intros pair Hin.
    destruct (pairId c1 =? pairId c2); [|now apply Hboard].
    apply in_app_or in Hin. destruct Hin as [Hin|[Hin|[]]]; [now apply Hboard|].
    subst pair. simpl. lia.
Qed.

Lemma step_consistent (w w' : World) :
  invariant w -> consistent w -> step w w' -> consistent w'.
Proof.
  intros Hinv Hcons Hstep.
  destruct Hstep as [w w' cardIndex Hlt Hrun | w w' Hlen Hrun | w w' Hf Hp Ha Hrun].
  - now apply reveal_consistent with w cardIndex.
  - now apply resolve_consistent with w.
  - now apply opponentReveal_consistent with w.
Qed.

Lemma reachable_consistent (w : World) : reachable w -> consistent w.
Proof.
  induction 1 as [savedDifficulty rs w Hstart | w w' Hreach IH Hstep].
  - now apply start_consistent with savedDifficulty rs.
  - apply step_consistent with w; [now apply reachable_invariant | exact IH | exact Hstep].
Qed.

(** ** The opponent always has two cards to choose from *)

Lemma flat_map_length_le {A B} (f : A -> list B) (k : nat) (l : list A) :
  (forall x, length (f x) <= k) -> length (flat_map f l) <= k * length l.
Proof.
  intro Hf. induction l as [|x l IH]; simpl; [lia|].
  rewrite length_app. specialize (Hf x). lia.
Qed.

Lemma available_count (s : GameState) :
  length (cards s)
  <= length (getAvailableCards s) + length (flippedCards s) + 2 * length (matchedPairs s).
Proof.
  unfold getAvailableCards.
  set (free := fun i => negb (flippedIncludes s i) && negb (isCardMatched s i)).
  pose proof (filter_length free (seq 0 (length (cards s)))) as Hsplit.
  rewrite length_seq in Hsplit.
  set (taken := flat_map (fun x : option nat => match x with Some j => [j] | None => [] end)
                         (flippedCards s)
                ++ flat_map (fun pair : nat * nat => [fst pair; snd pair]) (matchedPairs s)).
  assert (Hincl : incl (filter (fun i => negb (free i)) (seq 0 (length (cards s)))) taken).
  { intros i Hi. apply filter_In in Hi. destruct Hi as [_ Hi]. unfold free in Hi.
    rewrite negb_andb, !negb_involutive, orb_true_iff in Hi.
    unfold taken. rewrite in_app_iff, !in_flat_map. destruct Hi as [Hi|Hi].
    - left. apply flippedIncludes_iff in Hi. exists (Some i). simpl. auto.
    - right. apply isCardMatched_iff in Hi. destruct Hi as (pair & Hin & Hor).
      exists pair. simpl. tauto. }
  assert (Hnd : NoDup (filter (fun i => negb (free i)) (seq 0 (length (cards s)))))
    by apply NoDup_filter, seq_NoDup.
  pose proof (NoDup_incl_length Hnd Hincl) as Hle.
  assert (Htaken : length taken <= length (flippedCards s) + 2 * length (matchedPairs s)).
  { unfold taken. rewrite length_app.
    pose proof (flat_map_length_le
                  (fun x : option nat => match x with Some j => [j] | None => [] end) 1
                  (flippedCards s)) as H1.
    pose proof (flat_map_length_le (fun pair : nat * nat => [fst pair; snd pair]) 2
                  (matchedPairs s)) as H2.
    assert (length (flat_map (fun x : option nat => match x with Some j => [j] | None => [] end)
                      (flippedCards s)) <= 1 * length (flippedCards s))
      by (apply H1; intros [j|]; simpl; lia).
    assert (length (flat_map (fun pair : nat * nat => [fst pair; snd pair]) (matchedPairs s))
            <= 2 * length (matchedPairs s))
      by (apply H2; intro; simpl; lia).
    lia. }
  fold free. lia.
Qed.

Lemma opponent_has_two_cards (w : World) :
  invariant w ->
  flippedCards (stateOf w) = [] ->
  isGameActive (stateOf w) = true ->
  2 <= length (getAvailableCards (stateOf w)).
Proof.
  intros Hinv Hf Hactive.
  pose proof (active_not_complete w Hinv Hactive) as Hopen.
  destruct Hinv as (_ & _ & _ & _ & _ & _ & Hin & _ & _ & Hsize & Hbound).
  destruct (profile_even _ Hin) as (half & Hhalf).
  pose proof (available_count (stateOf w)) as Hcount.
  rewrite Hf in Hcount. simpl in Hcount. unfold matchedCount in Hopen. lia.
Qed.
